(** * retinanet/train.py: the training driver

    A shallow embedding of [train] (src/retinanet/train.py).  The function is
    an orchestration loop around framework calls (torch, apex.amp,
    torch.distributed, tensorboardX) and helpers of the package that live in
    other files (infer, Profiler, post_metrics, the data iterators).  The
    embedding keeps the control flow of [train] as it is written and records
    every call that leaves the function as an event of a trace; what the outside
    world answers (losses, elapsed time, validation results, exceptions) is
    read from an environment.

    Numbers: Python ints are [Z]; floats and 0-dim tensors are rationals
    extended with one non-finite value (inf and nan are not told apart).
    The arithmetic is exact: the rounding of floats and the overflow of a
    finite sum or mean to inf are not modelled, so no statement below says
    that a computed loss is finite.

    Left out: the move of the model to the GPU, the [del] statements, the
    ['fw'] and ['bw'] timers of the profiler and the timing figures of the
    progress line. *)

From Stdlib Require Import ZArith QArith String List Lia Bool.
From stdpp Require Import base gmap strings.
Import ListNotations.
Local Open Scope string_scope.
Local Open Scope list_scope.
Local Open Scope Z_scope.

(** ** Values *)

(** A float or a 0-dim tensor. *)
Inductive scalar :=
| Fin (q : Q)
| NonFinite.

(** [math.isfinite] *)
Definition isfinite (x : scalar) : bool :=
  match x with Fin _ => true | NonFinite => false end.

Definition sadd (x y : scalar) : scalar :=
  match x, y with
  | Fin a, Fin b => Fin (a + b)
  | _, _ => NonFinite
  end.

(** Division of a float by an int; a zero divisor gives inf or nan. *)
Definition sdiv (x : scalar) (n : Z) : scalar :=
  match x with
  | Fin a => if n =? 0 then NonFinite else Fin (a / inject_Z n)
  | NonFinite => NonFinite
  end.

Definition ssum (l : list scalar) : scalar := fold_left sadd l (Fin 0).

(** [t.mean()] for a tensor [t] given by the list of its elements: the exact
    mean, nan for a tensor without elements. *)
Definition smean (l : list scalar) : scalar :=
  sdiv (ssum l) (Z.of_nat (length l)).

(** Equality of scalars up to the representation of the rational. *)
Definition seqv (x y : scalar) : Prop :=
  match x, y with
  | Fin a, Fin b => (a == b)%Q
  | NonFinite, NonFinite => True
  | _, _ => False
  end.

(** A tensor as the list of its elements. *)
Definition tensor := list scalar.

(** [a + b] on tensors of one shape. *)
Definition tadd (a b : tensor) : tensor :=
  map (fun p => sadd (fst p) (snd p)) (combine a b).

Definition Qgtb (x y : Q) : bool := negb (Qle_bool x y).
Definition Qltb (x y : Q) : bool := negb (Qle_bool y x).

(** Python truthiness of an optional string argument ([None] and [''] are
    falsy). *)
Definition truthy (o : option string) : bool :=
  match o with
  | None => false
  | Some s => negb (String.eqb s "")
  end.

(** ** Exceptions *)

(** [KeyboardInterrupt] and [SystemExit] derive from [BaseException] only;
    the others are subclasses of [Exception]. *)
Inductive exn :=
| RuntimeError (msg : string)
| ZeroDivisionError
| KeyError (key : string)
| TypeError (msg : string)
| StatisticsError (msg : string)
| FrameworkError (msg : string)
| KeyboardInterrupt
| SystemExit.

(** [isinstance(e, Exception)] *)
Definition is_Exception (e : exn) : bool :=
  match e with
  | KeyboardInterrupt | SystemExit => false
  | _ => true
  end.

(** ** Optimizer and scheduler *)

(** [Adam]: the learning rate of [param_groups[0]] and the number of updates
    made. *)
Record optim := { opt_lr : Q; opt_steps : nat }.

(** Modelled from the spec: [ReduceLROnPlateau] is torch code, not in this
    repository.  The scheduler keeps the best metric seen and the number of
    consecutive steps without improvement; the numeric defaults of torch
    that the spec does not describe (threshold, cooldown, eps, min_lr) are
    left out. *)
Record plateau := {
  sched_best : option Q;
  sched_num_bad : nat
}.

(** Line 55:
    [ReduceLROnPlateau(optimizer, mode='min', factor=0.5, patience=2)] *)
Definition factor : Q := 1 # 2.
Definition patience : nat := 2.
Definition ReduceLROnPlateau : plateau :=
  {| sched_best := None; sched_num_bad := 0 |}.

(** Mode ['min']: a metric improves when it is below the best one so far. *)
Definition is_better (metric : Q) (best : option Q) : bool :=
  match best with
  | None => true
  | Some b => Qltb metric b
  end.

(** Modelled from the spec: [scheduler.step(metric)].  The learning rate of
    the optimizer the scheduler was built on is multiplied by the factor once
    the metric has not improved for more than [patience] consecutive steps. *)
Definition scheduler_step (metric : Q) (p : plateau) (o : optim) : plateau * optim :=
  let improved := is_better metric (sched_best p) in
  let best := if improved then Some metric else sched_best p in
  let bad := if improved then O else S (sched_num_bad p) in
  if (patience <? bad)%nat then
    ({| sched_best := best; sched_num_bad := O |},
     {| opt_lr := (opt_lr o * factor)%Q; opt_steps := opt_steps o |})
  else
    ({| sched_best := best; sched_num_bad := bad |}, o).

(** ** The [state] dictionary *)

Inductive pyval :=
| VInt (z : Z)
| VStr (s : string)
| VOptimizer (o : optim)
| VScheduler (p : plateau).

(** ** Arguments of [train]

    [model], [path], [annotations], [val_path], [resize], [max_size] and
    [jitter] are only handed on to the framework; [warmup], [milestones] and
    [gamma] are used in commented-out code only. *)
Record Config := {
  val_annotations : option string;
  batch_size : Z;
  iterations : Z;
  val_iterations : Z;
  mixed_precision : bool;
  lr : Q;
  is_master : bool;
  world : Z;
  use_dali : bool;
  verbose : bool;
  metrics_url : option string;
  logdir : option string
}.

(** ** Events *)

Inductive console_line :=
| LPreparing
| LDataIterator
| LDevice (world : Z)
| LBatch (batch_size : Z) (precision : string)
| LTraining (iterations : Z)
| LTensorBoard (logdir : string)
| LProgress (iteration iterations : Z) (focal_loss box_loss : scalar) (learning_rate : Q)
| LF1 (f1_m : Q)
| LSaving (iteration : pyval)
| LException (e : exn).

Inductive loss_kind := Cls | Box.

(** The calls of [train] that act on the outside.  [EBackward loss] is
    [scaled_loss.backward()] for the [scaled_loss] that [amp.scale_loss]
    makes of [loss]; [EModelTrain] is [model.train()]; [EInfer] is the call
    of [infer] on the validation set. *)
Inductive event :=
| EAmpInitialize (opt_level : string) (loss_scale : Q) (verbosity : bool)
| EDistributedDataParallel
| EModelTrain
| ELoadStateDict (o : optim)
| EPrint (line : console_line)
| ESummaryWriter (logdir : string)
| EZeroGrad
| EForward
| EBackward (loss : tensor)
| EOptimizerStep
| EAllReduce (k : loss_kind) (x : scalar)
| EAddScalar (tag : string) (value : scalar) (global_step : Z)
| EPostMetrics (url : string) (focal_loss box_loss : scalar) (learning_rate : Q)
| EInfer (annotations : string) (mixed_precision : bool)
| ESchedulerStep (metric : Q)
| ESave (state : gmap string pyval)
| EWriterClose.

(** The places of the loop body where control leaves [train]. *)
Inductive callsite :=
| CNextBatch
| CZeroGrad
| CForward
| CBackward
| COptimizerStep
| CAllReduce (k : loss_kind)
| CAddScalar (tag : string)
| CPostMetrics
| CInfer
| CSchedulerStep
| CModelTrain
| CSave.

(** What [infer] returns when validating: a message or the metric. *)
Inductive infer_result :=
| InferStr (s : string)
| InferNum (f1_m : Q).

(** ** Environment

    Everything [train] reads from outside, indexed by the number of batches
    fetched so far. *)
Record Env := {
  (** batches the data iterator yields in its [e]-th pass *)
  epoch_batches : nat -> nat;
  (** the losses the forward pass of this worker returns *)
  forward : nat -> tensor * tensor;
  (** what the other workers contribute to the two [all_reduce] calls *)
  peers : nat -> list (scalar * scalar);
  (** seconds added to [profiler.totals['train']] by [profiler.bump] *)
  elapsed : nat -> Q;
  (** result of [infer] *)
  validation : nat -> infer_result;
  (** the exception a call raises, if it does *)
  raises : callsite -> nat -> option exn
}.

(** ** Machine state *)

(** Each event is stamped with the iteration counter and the accumulated
    train time at the moment of the call. *)
Record stamp := { at_iteration : Z; at_total : Q }.

Record St := {
  iteration : Z;
  state : gmap string pyval;
  optimizer : optim;
  scheduler : plateau;
  cls_losses : list scalar;
  box_losses : list scalar;
  (** Modelled from the spec: [profiler.totals['train']] of [Profiler]
      (retinanet/utils.py), the time accumulated since the last reset. *)
  train_total : Q;
  (** batches fetched so far *)
  clock : nat;
  (** passes over the data iterator started so far *)
  epoch : nat;
  trace : list (stamp * event)
}.

Definition set_iteration (z : Z) (s : St) : St :=
  {| iteration := z; state := state s; optimizer := optimizer s;
     scheduler := scheduler s; cls_losses := cls_losses s;
     box_losses := box_losses s; train_total := train_total s;
     clock := clock s; epoch := epoch s; trace := trace s |}.

Definition set_state (d : gmap string pyval) (s : St) : St :=
  {| iteration := iteration s; state := d; optimizer := optimizer s;
     scheduler := scheduler s; cls_losses := cls_losses s;
     box_losses := box_losses s; train_total := train_total s;
     clock := clock s; epoch := epoch s; trace := trace s |}.

Definition set_optimizer (o : optim) (s : St) : St :=
  {| iteration := iteration s; state := state s; optimizer := o;
     scheduler := scheduler s; cls_losses := cls_losses s;
     box_losses := box_losses s; train_total := train_total s;
     clock := clock s; epoch := epoch s; trace := trace s |}.

Definition set_scheduler (p : plateau) (s : St) : St :=
  {| iteration := iteration s; state := state s; optimizer := optimizer s;
     scheduler := p; cls_losses := cls_losses s;
     box_losses := box_losses s; train_total := train_total s;
     clock := clock s; epoch := epoch s; trace := trace s |}.

Definition set_losses (c b : list scalar) (s : St) : St :=
  {| iteration := iteration s; state := state s; optimizer := optimizer s;
     scheduler := scheduler s; cls_losses := c;
     box_losses := b; train_total := train_total s;
     clock := clock s; epoch := epoch s; trace := trace s |}.

Definition set_train_total (t : Q) (s : St) : St :=
  {| iteration := iteration s; state := state s; optimizer := optimizer s;
     scheduler := scheduler s; cls_losses := cls_losses s;
     box_losses := box_losses s; train_total := t;
     clock := clock s; epoch := epoch s; trace := trace s |}.

Definition set_clock (k : nat) (s : St) : St :=
  {| iteration := iteration s; state := state s; optimizer := optimizer s;
     scheduler := scheduler s; cls_losses := cls_losses s;
     box_losses := box_losses s; train_total := train_total s;
     clock := k; epoch := epoch s; trace := trace s |}.

Definition set_epoch (e : nat) (s : St) : St :=
  {| iteration := iteration s; state := state s; optimizer := optimizer s;
     scheduler := scheduler s; cls_losses := cls_losses s;
     box_losses := box_losses s; train_total := train_total s;
     clock := clock s; epoch := e; trace := trace s |}.

Definition stamp_of (s : St) : stamp :=
  {| at_iteration := iteration s; at_total := train_total s |}.

Definition log (ev : event) (s : St) : St :=
  {| iteration := iteration s; state := state s; optimizer := optimizer s;
     scheduler := scheduler s; cls_losses := cls_losses s;
     box_losses := box_losses s; train_total := train_total s;
     clock := clock s; epoch := epoch s;
     trace := trace s ++ [(stamp_of s, ev)] |}.

(** ** A state and exception monad *)

Inductive res (A : Type) :=
| Ok (a : A)
| Raise (e : exn).
Arguments Ok {A} a.
Arguments Raise {A} e.

Definition M (A : Type) : Type := St -> St * res A.

Definition ret {A} (a : A) : M A := fun s => (s, Ok a).

Definition bind {A B} (m : M A) (f : A -> M B) : M B :=
  fun s =>
    match m s with
    | (s', Ok a) => f a s'
    | (s', Raise e) => (s', Raise e)
    end.

Definition raise {A} (e : exn) : M A := fun s => (s, Raise e).

Definition get : M St := fun s => (s, Ok s).

Definition modify (f : St -> St) : M unit := fun s => (f s, Ok tt).

Declare Scope train_scope.
Delimit Scope train_scope with train.
Notation "'let*' x := m 'in' k" :=
  (bind m (fun x => k))
  (at level 10, x binder, m at level 100, k at level 200) : train_scope.
Notation "m >> k" :=
  (bind m (fun _ => k))
  (at level 100, k at level 200, right associativity) : train_scope.
Local Open Scope train_scope.

(** ** The code of [train] *)

(** [amp.initialize(..., opt_level='O0' if mixed_precision else 'O0', ...)] *)
Definition opt_level (mixed_precision : bool) : string :=
  if mixed_precision then "O0" else "O0".

(** ['mixed' if mixed_precision else 'full'], as printed before training *)
Definition precision_label (mixed_precision : bool) : string :=
  if mixed_precision then "mixed" else "full".

Definition loss_scale : Q := 128.

(** The character ['\n']. *)
Definition newline : string := String (Ascii.ascii_of_nat 10) EmptyString.

(** ['Loss is diverging!\n{}'.format('Try lowering the learning rate.')] *)
Definition diverging : exn :=
  RuntimeError
    (String.append "Loss is diverging!"
                   (String.append newline "Try lowering the learning rate.")).

(** [break] or the end of the loop body *)
Inductive ctl := Continue | Break.

Inductive outcome :=
| Returned
| Propagated (e : exn).

Definition pick (kind : loss_kind) (p : scalar * scalar) : scalar :=
  match kind with Cls => fst p | Box => snd p end.

(** [state.update({'iteration': ..., 'optimizer': ..., 'scheduler': ...})] *)
Definition state_update (s : St) : gmap string pyval :=
  <["scheduler" := VScheduler (scheduler s)]>
    (<["optimizer" := VOptimizer (optimizer s)]>
       (<["iteration" := VInt (iteration s)]> (state s))).

Section Train.

Variable cfg : Config.
Variable env : Env.

Definition emit (ev : event) : M unit := modify (log ev).

Definition may_raise (c : callsite) (k : nat) : M unit :=
  match raises env c k with
  | Some e => raise e
  | None => ret tt
  end.

(** A call that leaves [train]: it raises, or it happens and returns. *)
Definition call (c : callsite) (k : nat) (ev : event) : M unit :=
  may_raise c k >> emit ev.

(** Lines 22-78: everything before the [try].  An ['optimizer'] entry of
    [state] that is not an optimizer state makes [load_state_dict] raise. *)
Definition setup : M unit :=
  emit (EAmpInitialize (opt_level (mixed_precision cfg)) loss_scale (is_master cfg)) >>
  (if 1 <? world cfg then emit EDistributedDataParallel else ret tt) >>
  emit EModelTrain >>
  (let* s := get in
   match state s !! "optimizer" with
   | None => ret tt
   | Some (VOptimizer o) => emit (ELoadStateDict o) >> modify (set_optimizer o)
   | Some _ => raise (TypeError "load_state_dict")
   end) >>
  (if verbose cfg then emit (EPrint LPreparing) else ret tt) >>
  (if verbose cfg then emit (EPrint LDataIterator) else ret tt) >>
  (if verbose cfg then
     emit (EPrint (LDevice (world cfg))) >>
     emit (EPrint (LBatch (batch_size cfg) (precision_label (mixed_precision cfg)))) >>
     emit (EPrint (LTraining (iterations cfg)))
   else ret tt) >>
  (match logdir cfg with
   | Some d =>
       (if is_master cfg && verbose cfg then emit (EPrint (LTensorBoard d)) else ret tt) >>
       emit (ESummaryWriter d)
   | None => ret tt
   end).

(** Lines 86-97: forward pass, backward pass on the scaled sum, update. *)
Definition train_step (k : nat) : M (tensor * tensor) :=
  call CZeroGrad k EZeroGrad >>
  call CForward k EForward >>
  let cls_loss := fst (forward env k) in
  let box_loss := snd (forward env k) in
  call CBackward k (EBackward (tadd cls_loss box_loss)) >>
  call COptimizerStep k EOptimizerStep >>
  modify (fun s => set_optimizer {| opt_lr := opt_lr (optimizer s);
                                    opt_steps := S (opt_steps (optimizer s)) |} s) >>
  ret (cls_loss, box_loss).

(** [torch.distributed.all_reduce(x)]: the sum over the process group. *)
Definition all_reduce (kind : loss_kind) (k : nat) (x : scalar) : M scalar :=
  call (CAllReduce kind) k (EAllReduce kind x) >>
  ret (fold_left sadd (map (pick kind) (peers env k)) x).

(** Lines 100-108. *)
Definition reduce_losses (k : nat) (cls_t box_t : tensor) : M (scalar * scalar) :=
  let cls_loss := smean cls_t in
  let box_loss := smean box_t in
  let* r :=
    (if 1 <? world cfg then
       let* c := all_reduce Cls k cls_loss in
       let* b := all_reduce Box k box_loss in
       ret (sdiv c (world cfg), sdiv b (world cfg))
     else ret (cls_loss, box_loss)) in
  (if is_master cfg then
     modify (fun s => set_losses (cls_losses s ++ [fst r]) (box_losses s ++ [snd r]) s)
   else ret tt) >>
  ret r.

(** Lines 110-112. *)
Definition check_finite (cls_loss box_loss : scalar) : M unit :=
  if is_master cfg && negb (isfinite (sadd cls_loss box_loss))
  then raise diverging
  else ret tt.

(** [profiler.bump('train')] *)
Definition bump (k : nat) : M unit :=
  modify (fun s => set_train_total (train_total s + elapsed env k)%Q s).

(** Lines 120-121: [torch.stack(list(l)).mean().item()] for a list of 0-dim
    tensors; [torch.stack] raises on an empty list. *)
Definition stack_mean (l : list scalar) : M scalar :=
  match l with
  | [] => raise (RuntimeError "stack expects a non-empty TensorList")
  | _ :: _ => ret (smean l)
  end.

(** Lines 141-142: [statistics.mean(l)] for a list of 0-dim tensors.  [mean]
    turns every element into an exact ratio through [as_integer_ratio] or
    [numerator] and [denominator]; a tensor has none of them, so the call
    raises [TypeError].  On an empty list it raises [StatisticsError]. *)
Definition statistics_mean (l : list scalar) : M scalar :=
  match l with
  | [] => raise (StatisticsError "mean requires at least one data point")
  | _ :: _ => raise (TypeError "can't convert type 'Tensor' to numerator/denominator")
  end.

(** The test of line 119. *)
Definition report_due (s : St) : bool :=
  is_master cfg && (Qgtb (train_total s) 2 || (iteration s =? iterations cfg)).

(** Lines 119-157.  With a truthy [metrics_url] the arguments of
    [post_metrics] are evaluated first, and [mean(cls_losses)] raises: the
    report ends there, before [post_metrics] and [state.update]. *)
Definition report (k : nat) : M unit :=
  let* s := get in
  if report_due s then
    let* focal_loss := stack_mean (cls_losses s) in
    let* box_loss := stack_mean (box_losses s) in
    let learning_rate := opt_lr (optimizer s) in
    (if verbose cfg then
       emit (EPrint (LProgress (iteration s) (iterations cfg) focal_loss box_loss learning_rate))
     else ret tt) >>
    (match logdir cfg with
     | Some _ =>
         call (CAddScalar "focal_loss") k (EAddScalar "focal_loss" focal_loss (iteration s)) >>
         call (CAddScalar "box_loss") k (EAddScalar "box_loss" box_loss (iteration s)) >>
         call (CAddScalar "learning_rate") k
              (EAddScalar "learning_rate" (Fin learning_rate) (iteration s))
     | None => ret tt
     end) >>
    (if truthy (metrics_url cfg) then
       let* focal := statistics_mean (cls_losses s) in
       let* box := statistics_mean (box_losses s) in
       call CPostMetrics k
            (EPostMetrics (default "" (metrics_url cfg)) focal box learning_rate)
     else ret tt) >>
    modify (fun s => set_state (state_update s) s) >>
    modify (set_train_total 0) >>
    modify (set_losses [] [])
  else ret tt.

(** [iteration == iterations or iteration % val_iterations == 0] *)
Definition validation_due (it : Z) : M bool :=
  if it =? iterations cfg then ret true
  else if val_iterations cfg =? 0 then raise ZeroDivisionError
  else ret (it mod val_iterations cfg =? 0).

(** Lines 168-171. *)
Definition save_model (k : nat) : M unit :=
  let* s := get in
  match state s !! "iteration" with
  | None => raise (KeyError "iteration")
  | Some v => emit (EPrint (LSaving v)) >> call CSave k (ESave (state s))
  end.

(** Lines 159-171. *)
Definition validate (k : nat) : M unit :=
  if truthy (val_annotations cfg) then
    let* s := get in
    let* due := validation_due (iteration s) in
    if due then
      call CInfer k (EInfer (default "" (val_annotations cfg)) (mixed_precision cfg)) >>
      (match validation env k with
       | InferStr _ => ret tt
       | InferNum f1_m =>
           emit (EPrint (LF1 f1_m)) >>
           call CSchedulerStep k (ESchedulerStep f1_m) >>
           modify (fun s =>
                     let r := scheduler_step f1_m (scheduler s) (optimizer s) in
                     set_optimizer (snd r) (set_scheduler (fst r) s))
       end) >>
      call CModelTrain k EModelTrain >>
      (if is_master cfg then save_model k else ret tt)
    else ret tt
  else ret tt.

(** Lines 83-174: the body of the [for] loop on batch number [k]. *)
Definition body (k : nat) : M ctl :=
  let* l := train_step k in
  let* r := reduce_losses k (fst l) (snd l) in
  check_finite (fst r) (snd r) >>
  modify (fun s => set_iteration (iteration s + 1) s) >>
  bump k >>
  report k >>
  validate k >>
  let* s := get in
  if iteration s =? iterations cfg then ret Break else ret Continue.

(** Line 82: the [for] loop over a pass of [n] batches. *)
Fixpoint for_batches (n : nat) : M unit :=
  match n with
  | O => ret tt
  | S n' =>
      let* s := get in
      let k := clock s in
      may_raise CNextBatch k >>
      modify (set_clock (S k)) >>
      let* c := body k in
      match c with
      | Break => ret tt
      | Continue => for_batches n'
      end
  end.

(** Lines 80-81: the [while] loop.  [None]: the fuel did not suffice. *)
Fixpoint while_loop (fuel : nat) (s : St) : option (St * res unit) :=
  match fuel with
  | O => None
  | S fuel' =>
      if iteration s <? iterations cfg then
        match for_batches (epoch_batches env (epoch s))
                          (set_epoch (S (epoch s)) (set_losses [] [] s)) with
        | (s', Ok _) => while_loop fuel' s'
        | (s', Raise e) => Some (s', Raise e)
        end
      else Some (s, Ok tt)
  end.

(** Line 78 and the first test of line 80: [state.get('iteration', 0)]; a
    stored value that is not an int makes the comparison raise. *)
Definition loop (fuel : nat) (s : St) : option (St * res unit) :=
  match state s !! "iteration" with
  | None => while_loop fuel (set_iteration 0 s)
  | Some (VInt z) => while_loop fuel (set_iteration z s)
  | Some _ => Some (s, Raise (TypeError "'<' not supported"))
  end.

(** Lines 178-179. *)
Definition close_writer (s : St) : St :=
  match logdir cfg with
  | Some _ => log EWriterClose s
  | None => s
  end.

(** Lines 175-179: the handler and what follows it. *)
Definition finish (r : St * res unit) : St * outcome :=
  match r with
  | (s, Ok _) => (close_writer s, Returned)
  | (s, Raise e) =>
      if is_Exception e
      then (close_writer (log (EPrint (LException e)) s), Returned)
      else (s, Propagated e)
  end.

Definition initial (state0 : gmap string pyval) : St :=
  {| iteration := 0; state := state0;
     optimizer := {| opt_lr := lr cfg; opt_steps := 0 |};
     scheduler := ReduceLROnPlateau;
     cls_losses := []; box_losses := []; train_total := 0;
     clock := 0; epoch := 0; trace := [] |}.

Definition train (fuel : nat) (state0 : gmap string pyval) : option (St * outcome) :=
  match setup (initial state0) with
  | (s, Raise e) => Some (s, Propagated e)
  | (s, Ok _) =>
      match loop fuel s with
      | None => None
      | Some r => Some (finish r)
      end
  end.

End Train.

(** The events of a trace, without their stamps. *)
Definition events (s : St) : list event := map snd (trace s).

(** * Vocabulary of the statements *)

(** [follows R m]: running [m] relates the state before to the state after,
    whether [m] returns or raises. *)
Definition follows (R : St -> St -> Prop) {A} (m : M A) : Prop :=
  forall s, R s (fst (m s)).

(** The counters are untouched. *)
Definition same_counters (s s' : St) : Prop :=
  iteration s' = iteration s /\ clock s' = clock s /\ epoch s' = epoch s.

(** The dictionary is untouched. *)
Definition same_state (s s' : St) : Prop := state s' = state s.

(** What a report at the last iteration leaves in the dictionary. *)
Definition checkpointed (cfg : Config) (d : gmap string pyval) : Prop :=
  d !! "iteration" = Some (VInt (iterations cfg)) /\
  (exists o, d !! "optimizer" = Some (VOptimizer o)) /\
  (exists p, d !! "scheduler" = Some (VScheduler p)).

(** Events were appended, each of them satisfying [phi]. *)
Definition appended (phi : stamp * event -> Prop) (s s' : St) : Prop :=
  exists t, trace s' = trace s ++ t /\ Forall phi t.

Section Conditions.

Variable cfg : Config.

(** The test of line 119 held when the event was produced. *)
Definition reported (st : stamp) : Prop :=
  is_master cfg = true /\
  ((2 < at_total st)%Q \/ at_iteration st = iterations cfg).

(** The test of line 159 held when the event was produced. *)
Definition validated (st : stamp) : Prop :=
  truthy (val_annotations cfg) = true /\
  (at_iteration st = iterations cfg \/
   (val_iterations cfg <> 0 /\ at_iteration st mod val_iterations cfg = 0)).

(** The events the loop body can produce, each with the condition under
    which the code reaches it. *)
Definition loop_event_ok (p : stamp * event) : Prop :=
  match snd p with
  | EZeroGrad | EForward | EBackward _ | EOptimizerStep => True
  | EAllReduce _ _ => 1 < world cfg
  | EPrint (LProgress _ _ _ _ _) => reported (fst p) /\ verbose cfg = true
  | EAddScalar _ _ _ => reported (fst p) /\ logdir cfg <> None
  | EPostMetrics _ _ _ _ => reported (fst p) /\ truthy (metrics_url cfg) = true
  | EInfer _ _ | EPrint (LF1 _) | ESchedulerStep _ | EModelTrain => validated (fst p)
  | EPrint (LSaving _) | ESave _ => validated (fst p) /\ is_master cfg = true
  | _ => False
  end.

Definition ok {A} (m : M A) : Prop := follows (appended loop_event_ok) m.

(** The events of lines 22-78. *)
Definition setup_event_ok (p : stamp * event) : Prop :=
  match snd p with
  | EAmpInitialize o l v =>
      o = opt_level (mixed_precision cfg) /\ l = loss_scale /\ v = is_master cfg
  | EDistributedDataParallel => 1 < world cfg
  | EModelTrain | ELoadStateDict _ => True
  | EPrint LPreparing | EPrint LDataIterator | EPrint (LDevice _)
  | EPrint (LBatch _ _) | EPrint (LTraining _) => verbose cfg = true
  | EPrint (LTensorBoard d) =>
      logdir cfg = Some d /\ is_master cfg = true /\ verbose cfg = true
  | ESummaryWriter d => logdir cfg = Some d
  | _ => False
  end.

(** The events of lines 175-179. *)
Definition final_event_ok (p : stamp * event) : Prop :=
  match snd p with
  | EPrint (LException e) => is_Exception e = true
  | EWriterClose => logdir cfg <> None
  | _ => False
  end.

End Conditions.

(** The four calls of the training step, lines 88-97. *)
Definition is_step_event (ev : event) : bool :=
  match ev with
  | EZeroGrad | EForward | EBackward _ | EOptimizerStep => true
  | _ => false
  end.

(** The events of the training step on batch [k]. *)
Definition step_events (env : Env) (k : nat) : list event :=
  [EZeroGrad; EForward;
   EBackward (tadd (fst (forward env k)) (snd (forward env k)));
   EOptimizerStep].

(** The events of the training steps on the [n] batches from [k] on. *)
Fixpoint steps_from (env : Env) (k n : nat) : list event :=
  match n with
  | O => []
  | S n' => step_events env k ++ steps_from env (S k) n'
  end.

(** The events of lines 99-174: none of them belongs to the training step. *)
Definition after_step (p : stamp * event) : Prop := is_step_event (snd p) = false.

(** ** Concrete runs *)

(** A master worker that validates after every iteration. *)
Definition ex_cfg : Config :=
  {| val_annotations := Some "val.json"; batch_size := 2; iterations := 3;
     val_iterations := 1; mixed_precision := true; lr := 1 # 100;
     is_master := true; world := 1; use_dali := true; verbose := true;
     metrics_url := Some "http://metrics"; logdir := Some "logs" |}.


(** Two batches per pass, half a second per batch, finite losses, a numeric
    validation metric, no call raises. *)
Definition ex_env : Env :=
  {| epoch_batches := fun _ => 2%nat;
     forward := fun _ => ([Fin 1], [Fin 2]);
     peers := fun _ => [];
     elapsed := fun _ => 1 # 2;
     validation := fun _ => InferNum 1;
     raises := fun _ _ => None |}.

(** The forward pass of the first batch is interrupted from the keyboard. *)
Definition ex_env_interrupt : Env :=
  {| epoch_batches := fun _ => 2%nat;
     forward := fun _ => ([Fin 1], [Fin 2]);
     peers := fun _ => [];
     elapsed := fun _ => 1 # 2;
     validation := fun _ => InferNum 1;
     raises := fun c k =>
                 match c, k with
                 | CForward, O => Some KeyboardInterrupt
                 | _, _ => None
                 end |}.

(** The classification loss of every batch is not finite. *)
Definition ex_env_diverge : Env :=
  {| epoch_batches := fun _ => 2%nat;
     forward := fun _ => ([NonFinite], [Fin 2]);
     peers := fun _ => [];
     elapsed := fun _ => 1 # 2;
     validation := fun _ => InferNum 1;
     raises := fun _ _ => None |}.

(** A new training: the dictionary holds the path of the model only. *)
Definition ex_state_new : gmap string pyval := <["path" := VStr "model.pth"]> ∅.

(** A training resumed after one iteration. *)
Definition ex_state_resumed : gmap string pyval :=
  <["iteration" := VInt 1]> (<["path" := VStr "model.pth"]> ∅).

(** A training resumed beyond the requested number of iterations. *)
Definition ex_state_done : gmap string pyval := <["iteration" := VInt 5]> ∅.

(** The master of two workers, and what the other worker contributes. *)
Definition ex_cfg_two : Config :=
  {| val_annotations := Some "val.json"; batch_size := 2; iterations := 3;
     val_iterations := 1; mixed_precision := true; lr := 1 # 100;
     is_master := true; world := 2; use_dali := true; verbose := true;
     metrics_url := None; logdir := None |}.

Definition ex_env_two : Env :=
  {| epoch_batches := fun _ => 2%nat;
     forward := fun _ => ([Fin 1], [Fin 2]);
     peers := fun _ => [(Fin 3, Fin 4)];
     elapsed := fun _ => 1 # 2;
     validation := fun _ => InferNum 1;
     raises := fun _ _ => None |}.

(** [state.get('iteration', 0)] *)
Definition start_iteration (state0 : gmap string pyval) : Z :=
  match state0 !! "iteration" with
  | Some (VInt z) => z
  | _ => 0
  end.

(** ** Further vocabulary *)

(** The scheduler and the optimizer after steps of the scheduler with the
    metrics [ms], in this order. *)
Fixpoint scheduler_steps (ms : list Q) (p : plateau) (o : optim) : plateau * optim :=
  match ms with
  | [] => (p, o)
  | m :: ms' => scheduler_steps ms' (fst (scheduler_step m p o)) (snd (scheduler_step m p o))
  end.

(** The iteration a dictionary records is an int that does not exceed [it]. *)
Definition lagging (d : gmap string pyval) (it : Z) : Prop :=
  exists z, d !! "iteration" = Some (VInt z) /\ z <= it.

(** A dictionary that is saved records an iteration that is not ahead of the
    iteration at which it is saved. *)
Definition save_event_ok (p : stamp * event) : Prop :=
  match snd p with
  | ESave d => lagging d (at_iteration (fst p))
  | _ => True
  end.

(** The entry ['iteration'] of the dictionary, when there is one, is an int
    that does not exceed the iteration counter. *)
Definition iteration_entry_ok (s : St) : Prop :=
  forall v, state s !! "iteration" = Some v ->
            exists z, v = VInt z /\ z <= iteration s.

(** From a state whose entry is in order to one whose entry is in order, with
    saves of dictionaries that are not ahead. *)
Definition saves_lagging (s s' : St) : Prop :=
  iteration_entry_ok s ->
  iteration_entry_ok s' /\ appended save_event_ok s s'.

(** The last two calls of a loop that ends with a save of the dictionary. *)
Definition ends_with_final_save (cfg : Config) (s : St) : Prop :=
  (exists t,
      events s =
        t ++ [EPrint (LSaving (VInt (iterations cfg))); ESave (state s)]) /\
  checkpointed cfg (state s).

(** The calls that concern the TensorBoard writer. *)
Definition is_writer_event (ev : event) : bool :=
  match ev with
  | ESummaryWriter _ | EAddScalar _ _ _ | EWriterClose
  | EPrint (LTensorBoard _) => true
  | _ => false
  end.

(** The entries of the dictionary other than the three that a report writes
    are untouched. *)
Definition same_other_entries (s s' : St) : Prop :=
  forall key,
    key <> "iteration" -> key <> "optimizer" -> key <> "scheduler" ->
    state s' !! key = state s !! key.

(** The call of [infer]. *)
Definition is_infer_event (ev : event) : bool :=
  match ev with
  | EInfer _ _ => true
  | _ => false
  end.

Definition no_infer (p : stamp * event) : Prop := is_infer_event (snd p) = false.

(** The call of [post_metrics]. *)
Definition is_post_event (ev : event) : bool :=
  match ev with
  | EPostMetrics _ _ _ _ => true
  | _ => false
  end.

Definition no_post (p : stamp * event) : Prop := is_post_event (snd p) = false.

(** The message of the [TypeError] that [statistics.mean] raises on
    tensors. *)
Definition not_a_ratio : exn :=
  TypeError "can't convert type 'Tensor' to numerator/denominator".

(** The test of line 159 at iteration [it], for a truthy [val_annotations]. *)
Definition validation_point (cfg : Config) (it : Z) : Prop :=
  it = iterations cfg \/
  (val_iterations cfg <> 0 /\ it mod val_iterations cfg = 0).

(** A master that validates after every iteration and posts no metrics. *)
Definition ex_cfg_plain : Config :=
  {| val_annotations := Some "val.json"; batch_size := 2; iterations := 3;
     val_iterations := 1; mixed_precision := true; lr := 1 # 100;
     is_master := true; world := 1; use_dali := true; verbose := true;
     metrics_url := None; logdir := Some "logs" |}.

(** The same master, asked for 5 iterations. *)
Definition ex_cfg_long : Config :=
  {| val_annotations := Some "val.json"; batch_size := 2; iterations := 5;
     val_iterations := 1; mixed_precision := true; lr := 1 # 100;
     is_master := true; world := 1; use_dali := true; verbose := true;
     metrics_url := None; logdir := Some "logs" |}.

(** A plateau: the first validation gives 1/2, every later one gives 1. *)
Definition ex_env_plateau : Env :=
  {| epoch_batches := fun _ => 2%nat;
     forward := fun _ => ([Fin 1], [Fin 2]);
     peers := fun _ => [];
     elapsed := fun _ => 1 # 2;
     validation := fun k =>
                     match k with
                     | O => InferNum (1 # 2)
                     | _ => InferNum 1
                     end;
     raises := fun _ _ => None |}.

(** A worker that is not the master. *)
Definition ex_cfg_worker : Config :=
  {| val_annotations := Some "val.json"; batch_size := 2; iterations := 3;
     val_iterations := 1; mixed_precision := true; lr := 1 # 100;
     is_master := false; world := 2; use_dali := true; verbose := true;
     metrics_url := Some "http://metrics"; logdir := Some "logs" |}.

(** A master told to validate every 0 iterations. *)
Definition ex_cfg_zero : Config :=
  {| val_annotations := Some "val.json"; batch_size := 2; iterations := 3;
     val_iterations := 0; mixed_precision := true; lr := 1 # 100;
     is_master := true; world := 1; use_dali := true; verbose := true;
     metrics_url := Some "http://metrics"; logdir := Some "logs" |}.

(** A data iterator that yields no batch. *)
Definition ex_env_empty : Env :=
  {| epoch_batches := fun _ => 0%nat;
     forward := fun _ => ([Fin 1], [Fin 2]);
     peers := fun _ => [];
     elapsed := fun _ => 1 # 2;
     validation := fun _ => InferNum 1;
     raises := fun _ _ => None |}.

(** A checkpoint that holds the three entries of an earlier training. *)
Definition ex_state_checkpoint : gmap string pyval :=
  <["scheduler" := VScheduler {| sched_best := Some (1 # 2); sched_num_bad := 2 |}]>
    (<["optimizer" := VOptimizer {| opt_lr := 1 # 1000; opt_steps := 7 |}]>
       (<["iteration" := VInt 1]> ∅)).

(** * Reasoning about the monad *)

Section Follows.

Variable R : St -> St -> Prop.
Hypothesis R_refl : forall s, R s s.
Hypothesis R_trans : forall s1 s2 s3, R s1 s2 -> R s2 s3 -> R s1 s3.

Lemma follows_ret {A} (a : A) : follows R (ret a).
Proof. intros s. apply R_refl. Qed.

Lemma follows_raise {A} (e : exn) : follows R (@raise A e).
Proof. intros s. apply R_refl. Qed.

Lemma follows_get : follows R get.
Proof. intros s. apply R_refl. Qed.

Lemma follows_bind {A B} (m : M A) (f : A -> M B) :
  follows R m -> (forall a, follows R (f a)) -> follows R (bind m f).
Proof.
  intros Hm Hf s. unfold bind.
  specialize (Hm s). destruct (m s) as [s1 [a | e]]; simpl in *.
  - eapply R_trans; [exact Hm | apply Hf].
  - exact Hm.
Qed.

Lemma follows_modify (f : St -> St) :
  (forall s, R s (f s)) -> follows R (modify f).
Proof. intros H s. apply H. Qed.

Lemma follows_may_raise env c k : follows R (may_raise env c k).
Proof.
  unfold may_raise. destruct (raises env c k).
  - apply follows_raise.
  - apply follows_ret.
Qed.

End Follows.

(** A bind that returns: both parts returned. *)
Lemma bind_Ok {A B} (m : M A) (f : A -> M B) s s' b :
  bind m f s = (s', Ok b) ->
  exists s1 a, m s = (s1, Ok a) /\ f a s1 = (s', Ok b).
Proof.
  unfold bind. destruct (m s) as [s1 [a | e]]; intros H; [| discriminate].
  exists s1, a. split; [reflexivity | exact H].
Qed.

Lemma same_counters_refl s : same_counters s s.
Proof. repeat split. Qed.

Lemma same_counters_trans s1 s2 s3 :
  same_counters s1 s2 -> same_counters s2 s3 -> same_counters s1 s3.
Proof. unfold same_counters. intuition congruence. Qed.

Lemma appended_refl phi s : appended phi s s.
Proof. exists []. split; [now rewrite app_nil_r | constructor]. Qed.

Lemma appended_trans phi s1 s2 s3 :
  appended phi s1 s2 -> appended phi s2 s3 -> appended phi s1 s3.
Proof.
  intros [t1 [E1 F1]] [t2 [E2 F2]]. exists (t1 ++ t2). split.
  - rewrite E2, E1. now rewrite app_assoc.
  - apply Forall_app. split; assumption.
Qed.

Lemma appended_log (phi : stamp * event -> Prop) ev s :
  phi (stamp_of s, ev) -> appended phi s (log ev s).
Proof. intros H. exists [(stamp_of s, ev)]. split; [reflexivity | repeat constructor; exact H]. Qed.

Lemma appended_same_trace phi s s' : trace s' = trace s -> appended phi s s'.
Proof. intros E. exists []. split; [now rewrite app_nil_r | constructor]. Qed.

Arguments state_update : simpl never.

(** Symbolic execution of a block: unfold the monad, split on every test and
    on every call that may raise. *)
Ltac run_block :=
  unfold stack_mean, statistics_mean, call, emit, may_raise, bind, ret, raise,
    get, modify;
  repeat (cbn;
          match goal with
          | |- context [match raises ?e ?c ?k with _ => _ end] =>
              destruct (raises e c k) eqn:?
          | |- context [if ?b then _ else _] => destruct b eqn:?
          | |- context [match logdir ?c with _ => _ end] => destruct (logdir c) eqn:?
          | |- context [match validation ?e ?k with _ => _ end] =>
              destruct (validation e k) eqn:?
          | |- context [match state ?s !! ?key with _ => _ end] =>
              destruct (state s !! key) eqn:?
          | |- context [match ?v with VInt _ => _ | _ => _ end] => destruct v
          | |- context [match cls_losses ?s with _ => _ end] =>
              destruct (cls_losses s) eqn:?
          | |- context [match box_losses ?s with _ => _ end] =>
              destruct (box_losses s) eqn:?
          end).

Ltac split_forall :=
  repeat first [apply List.Forall_nil | apply List.Forall_cons].

Ltac close_appended :=
  unfold appended; cbn; rewrite <- ?app_assoc; eexists;
  split; [first [reflexivity | symmetry; apply app_nil_r] | split_forall].

(** * What the loop may do, and when *)

Section Safety.

Variable cfg : Config.
Variable env : Env.

Lemma report_due_reported s :
  report_due cfg s = true -> reported cfg (stamp_of s).
Proof.
  unfold report_due, reported. intros H.
  apply andb_true_iff in H as [Hm H]. split; [exact Hm |].
  apply orb_true_iff in H as [H | H].
  - left. unfold Qgtb in H. apply negb_true_iff in H. simpl.
    apply Qnot_le_lt. intros Hle. apply Qle_bool_iff in Hle. congruence.
  - right. simpl. now apply Z.eqb_eq.
Qed.

Lemma ok_ret {A} (a : A) : ok cfg (ret a).
Proof. apply follows_ret, appended_refl. Qed.

Lemma ok_raise {A} (e : exn) : ok cfg (@raise A e).
Proof. apply follows_raise, appended_refl. Qed.

Lemma ok_bind {A B} (m : M A) (f : A -> M B) :
  ok cfg m -> (forall a, ok cfg (f a)) -> ok cfg (bind m f).
Proof. apply follows_bind, appended_trans. Qed.

Lemma ok_quiet (f : St -> St) :
  (forall s, trace (f s) = trace s) -> ok cfg (modify f).
Proof. intros H. apply follows_modify. intros s. apply appended_same_trace, H. Qed.

Lemma ok_call c k ev :
  (forall st, loop_event_ok cfg (st, ev)) -> ok cfg (call env c k ev).
Proof.
  intros H. unfold call. apply ok_bind.
  - apply follows_may_raise, appended_refl.
  - intros _. apply follows_modify. intros s. apply appended_log, H.
Qed.

Lemma train_step_ok k : ok cfg (train_step env k).
Proof.
  unfold train_step.
  repeat (apply ok_bind; [apply ok_call; intros st; exact I | intros _]).
  apply ok_bind; [apply ok_quiet; reflexivity | intros _; apply ok_ret].
Qed.

Lemma reduce_losses_ok k cls_t box_t : ok cfg (reduce_losses cfg env k cls_t box_t).
Proof.
  unfold reduce_losses. apply ok_bind.
  - destruct (1 <? world cfg) eqn:W; [| apply ok_ret].
    apply Z.ltb_lt in W.
    assert (Hall : forall kind x, ok cfg (all_reduce env kind k x)).
    { intros kind x. unfold all_reduce.
      apply ok_bind; [apply ok_call; intros st; exact W | intros _; apply ok_ret]. }
    apply ok_bind; [apply Hall | intros c].
    apply ok_bind; [apply Hall | intros b]. apply ok_ret.
  - intros r. apply ok_bind; [| intros _; apply ok_ret].
    destruct (is_master cfg); [apply ok_quiet; reflexivity | apply ok_ret].
Qed.

Lemma check_finite_ok c b : ok cfg (check_finite cfg c b).
Proof.
  unfold check_finite.
  destruct (is_master cfg && negb (isfinite (sadd c b))); [apply ok_raise | apply ok_ret].
Qed.

Lemma bump_ok k : ok cfg (bump env k).
Proof. apply ok_quiet. reflexivity. Qed.

Lemma report_ok k : ok cfg (report cfg env k).
Proof.
  intros s. unfold report.
  unfold bind at 1, get at 1. cbn.
  destruct (report_due cfg s) eqn:D; [| apply appended_refl].
  apply report_due_reported in D. unfold stamp_of in D.
  run_block; close_appended; cbn; try (split; [exact D |]); try assumption;
    try congruence.
Qed.

Lemma validate_ok k : ok cfg (validate cfg env k).
Proof.
  intros s. unfold validate, validation_due, save_model.
  destruct (truthy (val_annotations cfg)) eqn:V; [| apply appended_refl].
  unfold bind at 1, get at 1. cbn.
  assert (D : (iteration s =? iterations cfg) = true \/
              ((iteration s =? iterations cfg) = false /\
               (val_iterations cfg =? 0) = false /\
               (iteration s mod val_iterations cfg =? 0) = true) ->
              validated cfg (stamp_of s)).
  { intros [H | [_ [H1 H2]]]; (split; [exact V |]); cbn.
    - left. now apply Z.eqb_eq.
    - right. split; [now apply Z.eqb_neq | now apply Z.eqb_eq]. }
  destruct (iteration s =? iterations cfg) eqn:E1.
  - specialize (D (or_introl eq_refl)).
    run_block; close_appended; cbn; try (split; [exact D |]); try assumption.
  - destruct (val_iterations cfg =? 0) eqn:E2; [apply appended_refl |].
    destruct (iteration s mod val_iterations cfg =? 0) eqn:E3;
      [| run_block; apply appended_refl].
    specialize (D (or_intror (conj eq_refl (conj eq_refl eq_refl)))).
    run_block; close_appended; cbn; try (split; [exact D |]); try assumption.
Qed.

Lemma body_ok k : ok cfg (body cfg env k).
Proof.
  unfold body.
  apply ok_bind; [apply train_step_ok | intros l].
  apply ok_bind; [apply reduce_losses_ok | intros r].
  apply ok_bind; [apply check_finite_ok | intros _].
  apply ok_bind; [apply ok_quiet; reflexivity | intros _].
  apply ok_bind; [apply bump_ok | intros _].
  apply ok_bind; [apply report_ok | intros _].
  apply ok_bind; [apply validate_ok | intros _].
  apply ok_bind; [apply follows_get, appended_refl | intros s].
  destruct (iteration s =? iterations cfg); apply ok_ret.
Qed.

Lemma for_batches_ok n : ok cfg (for_batches cfg env n).
Proof.
  induction n as [| n IH]; cbn [for_batches]; [apply ok_ret |].
  apply ok_bind; [apply follows_get, appended_refl | intros s].
  apply ok_bind; [apply follows_may_raise, appended_refl | intros _].
  apply ok_bind; [apply ok_quiet; reflexivity | intros _].
  apply ok_bind; [apply body_ok | intros c].
  destruct c; [exact IH | apply ok_ret].
Qed.

Lemma while_loop_ok fuel : forall s s' r,
  while_loop cfg env fuel s = Some (s', r) -> appended (loop_event_ok cfg) s s'.
Proof.
  induction fuel as [| fuel IH]; intros s s' r H; cbn [while_loop] in H; [discriminate |].
  destruct (iteration s <? iterations cfg).
  - pose proof (for_batches_ok (epoch_batches env (epoch s))
                  (set_epoch (S (epoch s)) (set_losses [] [] s))) as F.
    destruct (for_batches cfg env _ _) as [s1 [[] | e]]; cbn in F.
    + eapply appended_trans; [| eapply IH; exact H].
      eapply appended_trans; [| exact F]. now apply appended_same_trace.
    + injection H as <- _.
      eapply appended_trans; [| exact F]. now apply appended_same_trace.
  - injection H as <- _. apply appended_refl.
Qed.

Lemma loop_ok fuel s s' r :
  loop cfg env fuel s = Some (s', r) -> appended (loop_event_ok cfg) s s'.
Proof.
  unfold loop. intros H.
  destruct (state s !! "iteration") as [[z | | |] |].
  2-4: injection H as <- _; apply appended_refl.
  all: eapply appended_trans; [| eapply while_loop_ok; exact H];
    now apply appended_same_trace.
Qed.

End Safety.

(** * The trace of a whole run *)

Section Run.

Variable cfg : Config.
Variable env : Env.

Lemma setup_ok s : appended (setup_event_ok cfg) s (fst (setup cfg s)).
Proof.
  unfold setup.
  run_block; close_appended; cbn; auto.
  all: try (apply Z.ltb_lt; assumption).
  all: repeat match goal with
              | H : (_ && _) = true |- _ => apply andb_true_iff in H as []
              end; try discriminate; auto.
Qed.

Lemma setup_writer s d :
  logdir cfg = Some d ->
  snd (setup cfg s) = Ok tt ->
  exists t st, trace (fst (setup cfg s)) = t ++ [(st, ESummaryWriter d)].
Proof.
  intros L. unfold setup. rewrite L.
  run_block; cbn; intros H; try discriminate; eexists; eexists; reflexivity.
Qed.

Lemma finish_ok s r :
  appended (final_event_ok cfg) s (fst (finish cfg (s, r))).
Proof.
  unfold finish, close_writer.
  destruct r as [[] | e]; [| destruct (is_Exception e) eqn:E];
    destruct (logdir cfg) eqn:L; close_appended; cbn; congruence.
Qed.

(** The trace of a run: the events of the set-up, then those of the loop,
    then those of the handler and of the closing of the writer. *)
Lemma train_trace fuel state0 s o :
  train cfg env fuel state0 = Some (s, o) ->
  exists t0 t1 t2,
    trace s = t0 ++ t1 ++ t2 /\
    Forall (setup_event_ok cfg) t0 /\
    Forall (loop_event_ok cfg) t1 /\
    Forall (final_event_ok cfg) t2.
Proof.
  unfold train. intros H.
  pose proof (setup_ok (initial cfg state0)) as [t0 [E0 F0]].
  destruct (setup cfg (initial cfg state0)) as [s0 [[] | e]]; cbn in E0.
  - destruct (loop cfg env fuel s0) as [[s1 r] |] eqn:Lp; [| discriminate].
    apply loop_ok in Lp as [t1 [E1 F1]].
    pose proof (finish_ok s1 r) as [t2 [E2 F2]].
    assert (Hs : finish cfg (s1, r) = (s, o)) by congruence.
    rewrite Hs in E2. cbn in E2.
    exists t0, t1, t2. repeat split; try assumption.
    rewrite E2, E1, E0. now rewrite <- app_assoc.
  - injection H as <- _. exists t0, [], []. repeat split; try assumption; try constructor.
    rewrite E0. now rewrite !app_nil_r.
Qed.

End Run.

(** * Counting iterations *)

Ltac keep_counters :=
  cbv zeta;
  repeat match goal with
         | |- follows _ (ret _) => apply (follows_ret _ same_counters_refl)
         | |- follows _ (raise _) => apply (follows_raise _ same_counters_refl)
         | |- follows _ get => apply (follows_get _ same_counters_refl)
         | |- follows _ (may_raise _ _ _) =>
             apply (follows_may_raise _ same_counters_refl)
         | |- follows _ (modify _) => apply follows_modify; intros ?; repeat split
         | |- follows _ (bind _ _) =>
             apply (follows_bind _ same_counters_trans); [| intros ?]
         | |- follows _ (if ?b then _ else _) => destruct b
         | |- follows _ (match ?x with _ => _ end) => destruct x
         end.

Section Counting.

Variable cfg : Config.
Variable env : Env.

Lemma train_step_counters k : follows same_counters (train_step env k).
Proof. unfold train_step, call, emit. keep_counters. Qed.

Lemma reduce_losses_counters k c b :
  follows same_counters (reduce_losses cfg env k c b).
Proof. unfold reduce_losses, all_reduce, call, emit. keep_counters. Qed.

Lemma check_finite_counters c b : follows same_counters (check_finite cfg c b).
Proof. unfold check_finite. keep_counters. Qed.

Lemma bump_counters k : follows same_counters (bump env k).
Proof. unfold bump. keep_counters. Qed.

Lemma report_counters k : follows same_counters (report cfg env k).
Proof. unfold report, stack_mean, statistics_mean, call, emit. keep_counters. Qed.

Lemma validate_counters k : follows same_counters (validate cfg env k).
Proof.
  unfold validate, validation_due, save_model, call, emit. keep_counters.
Qed.

(** One pass through the loop body: the batch counters stay, the iteration
    counter moves by one, and the body breaks exactly when it reaches
    [iterations]. *)
Lemma body_counters k s :
  clock (fst (body cfg env k s)) = clock s /\
  epoch (fst (body cfg env k s)) = epoch s /\
  match snd (body cfg env k s) with
  | Ok c =>
      iteration (fst (body cfg env k s)) = iteration s + 1 /\
      (c = Break <-> iteration s + 1 = iterations cfg)
  | Raise _ =>
      iteration (fst (body cfg env k s)) = iteration s \/
      iteration (fst (body cfg env k s)) = iteration s + 1
  end.
Proof.
  unfold body, bind.
  pose proof (train_step_counters k s) as H1.
  destruct (train_step env k s) as [s1 [l | e]]; cbn in H1;
    destruct H1 as (I1 & C1 & E1); [| cbn; auto].
  pose proof (reduce_losses_counters k (fst l) (snd l) s1) as H2.
  destruct (reduce_losses cfg env k (fst l) (snd l) s1) as [s2 [r | e]]; cbn in H2;
    destruct H2 as (I2 & C2 & E2); [| cbn; repeat split; lia].
  pose proof (check_finite_counters (fst r) (snd r) s2) as H3.
  destruct (check_finite cfg (fst r) (snd r) s2) as [s3 [[] | e]]; cbn in H3;
    destruct H3 as (I3 & C3 & E3); [| cbn; repeat split; lia].
  unfold bump. unfold modify. cbn beta iota.
  match goal with
  | |- context [report cfg env k ?x] =>
      pose proof (report_counters k x) as H4;
      destruct (report cfg env k x) as [s4 [[] | e]];
      unfold same_counters in H4; cbn in H4;
      destruct H4 as (I4 & C4 & E4); [| cbn; repeat split; lia]
  end.
  pose proof (validate_counters k s4) as H5.
  destruct (validate cfg env k s4) as [s5 [[] | e]]; cbn in H5;
    destruct H5 as (I5 & C5 & E5); [| cbn; repeat split; lia].
  unfold get. cbn [fst snd].
  assert (It : iteration s5 = iteration s + 1) by lia.
  destruct (iteration s5 =? iterations cfg) eqn:B; cbn.
  - apply Z.eqb_eq in B. repeat split; try lia.
  - apply Z.eqb_neq in B. repeat split; try lia; try congruence.
Qed.

(** One pass over [n] batches, entered below [iterations]. *)
Lemma for_batches_spec n : forall s s' r,
  iteration s < iterations cfg ->
  for_batches cfg env n s = (s', r) ->
  epoch s' = epoch s /\
  match r with
  | Ok _ =>
      iteration s' = Z.min (iteration s + Z.of_nat n) (iterations cfg) /\
      Z.of_nat (clock s') = Z.of_nat (clock s) + (iteration s' - iteration s)
  | Raise _ =>
      iteration s <= iteration s' <= iterations cfg /\
      Z.of_nat (clock s) + (iteration s' - iteration s)
        <= Z.of_nat (clock s')
        <= Z.of_nat (clock s) + (iteration s' - iteration s) + 1
  end.
Proof.
  induction n as [| n IH]; intros s s' r Hlt H.
  - cbn in H. injection H as <- <-. repeat split; lia.
  - cbn [for_batches] in H. unfold bind, get, may_raise, modify in H.
    destruct (raises env CNextBatch (clock s)); cbn in H.
    { injection H as <- <-. repeat split; lia. }
    pose proof (body_counters (clock s) (set_clock (S (clock s)) s)) as (C & E & B).
    destruct (body cfg env (clock s) (set_clock (S (clock s)) s)) as [s1 [c | e]];
      cbn in C, E, B.
    + destruct B as [I1 Br]. destruct c.
      * assert (Hlt1 : iteration s1 < iterations cfg).
        { destruct (Z.eq_dec (iteration s + 1) (iterations cfg)) as [Heq | Hne]; [| lia].
          apply Br in Heq. discriminate. }
        destruct (IH s1 s' r Hlt1 H) as [E2 R2]. split; [congruence |].
        destruct r; lia.
      * assert (Heq : iteration s + 1 = iterations cfg) by now apply Br.
        injection H as <- <-. repeat split; lia.
    + injection H as <- <-. repeat split; lia.
Qed.

(** The [while] loop returns when the fuel exceeds the number of iterations
    left, provided that no pass over the data is empty. *)
Lemma while_loop_spec : forall fuel s,
  (forall e, (1 <= epoch_batches env e)%nat) ->
  (Z.to_nat (iterations cfg - iteration s) < fuel)%nat ->
  exists s' r,
    while_loop cfg env fuel s = Some (s', r) /\
    match r with
    | Ok _ =>
        iteration s' = Z.max (iteration s) (iterations cfg) /\
        Z.of_nat (clock s') = Z.of_nat (clock s) + (iteration s' - iteration s)
    | Raise _ =>
        iteration s <= iteration s' <= Z.max (iteration s) (iterations cfg) /\
        Z.of_nat (clock s) + (iteration s' - iteration s)
          <= Z.of_nat (clock s')
          <= Z.of_nat (clock s) + (iteration s' - iteration s) + 1
    end.
Proof.
  induction fuel as [| fuel IH]; intros s Hne Hf; [lia |].
  cbn [while_loop].
  destruct (iteration s <? iterations cfg) eqn:T.
  - apply Z.ltb_lt in T.
    set (s0 := set_epoch (S (epoch s)) (set_losses [] [] s)).
    pose proof (for_batches_spec (epoch_batches env (epoch s)) s0) as F.
    pose proof (Hne (epoch s)) as Hn.
    destruct (for_batches cfg env (epoch_batches env (epoch s)) s0) as [s1 [[] | e]];
      destruct (F _ _ T eq_refl) as [_ F1]; cbn in F1.
    + destruct F1 as [I1 C1].
      destruct (IH s1 Hne) as (s' & r & W & P); [lia |].
      exists s', r. split; [exact W |].
      destruct r; lia.
    + exists s1, (Raise e). split; [reflexivity | lia].
  - apply Z.ltb_ge in T. exists s, (Ok tt). split; [reflexivity | lia].
Qed.

End Counting.

(** * The state dictionary at a report *)

Section Reporting.

Variable cfg : Config.
Variable env : Env.

Lemma state_update_lookup s :
  state_update s !! "iteration" = Some (VInt (iteration s)) /\
  state_update s !! "optimizer" = Some (VOptimizer (optimizer s)) /\
  state_update s !! "scheduler" = Some (VScheduler (scheduler s)).
Proof.
  unfold state_update. repeat split.
  - rewrite lookup_insert_ne by discriminate.
    rewrite lookup_insert_ne by discriminate. apply lookup_insert_eq.
  - rewrite lookup_insert_ne by discriminate. apply lookup_insert_eq.
  - apply lookup_insert_eq.
Qed.

(** A report that returns has written the three entries. *)
Lemma report_state k s :
  report_due cfg s = true ->
  snd (report cfg env k s) = Ok tt ->
  state (fst (report cfg env k s)) = state_update s.
Proof.
  intros D. unfold report. unfold bind at 1, get at 1. cbn beta iota.
  rewrite D.
  run_block; cbn; intros H; try discriminate; reflexivity.
Qed.

End Reporting.

(** * Events that the loop never produces *)

Lemma setup_no_close cfg l :
  Forall (setup_event_ok cfg) l -> ~ In EWriterClose (map snd l).
Proof.
  intros F Hin. apply in_map_iff in Hin as ([st ev] & E & Hin).
  apply (proj1 (List.Forall_forall _ _) F) in Hin. cbn in E. subst ev. exact Hin.
Qed.

Lemma loop_no_close cfg l :
  Forall (loop_event_ok cfg) l -> ~ In EWriterClose (map snd l).
Proof.
  intros F Hin. apply in_map_iff in Hin as ([st ev] & E & Hin).
  apply (proj1 (List.Forall_forall _ _) F) in Hin. cbn in E. subst ev. exact Hin.
Qed.


(** * The training step *)

Ltac stay_after_step :=
  cbv zeta;
  repeat match goal with
         | |- follows _ (ret _) => apply follows_ret, appended_refl
         | |- follows _ (raise _) => apply follows_raise, appended_refl
         | |- follows _ get => apply follows_get, appended_refl
         | |- follows _ (may_raise _ _ _) => apply follows_may_raise, appended_refl
         | |- follows _ (modify (log _)) =>
             apply follows_modify; intros ?; apply appended_log; reflexivity
         | |- follows _ (modify _) =>
             apply follows_modify; intros ?; apply appended_same_trace; reflexivity
         | |- follows _ (bind _ _) =>
             apply follows_bind; [apply appended_trans | | intros ?]
         | |- follows _ (if ?b then _ else _) => destruct b
         | |- follows _ (match ?x with _ => _ end) => destruct x
         end.

Section Step.

Variable cfg : Config.
Variable env : Env.

(** A training step that returns made the four calls, in this order, and
    returns the losses of the forward pass. *)
Lemma train_step_trace k s s1 l :
  train_step env k s = (s1, Ok l) ->
  l = forward env k /\
  events s1 =
    events s ++ [EZeroGrad; EForward;
                 EBackward (tadd (fst (forward env k)) (snd (forward env k)));
                 EOptimizerStep].
Proof.
  unfold train_step, events.
  run_block; cbn; intros H; try discriminate.
  injection H as <- <-. split; [now destruct (forward env k) |].
  cbn. rewrite !map_app. cbn. now rewrite <- !app_assoc.
Qed.

Lemma reduce_losses_after_step k c b :
  follows (appended after_step) (reduce_losses cfg env k c b).
Proof. unfold reduce_losses, all_reduce, call, emit. stay_after_step. Qed.

Lemma report_after_step k : follows (appended after_step) (report cfg env k).
Proof. unfold report, stack_mean, statistics_mean, call, emit. stay_after_step. Qed.

Lemma validate_after_step k : follows (appended after_step) (validate cfg env k).
Proof.
  unfold validate, validation_due, save_model, call, emit. stay_after_step.
Qed.

(** A pass through the body that returns: the four calls, then events of
    the rest of the iteration only. *)
Lemma body_events k s s' c :
  body cfg env k s = (s', Ok c) ->
  exists rest,
    events s' = events s ++ step_events env k ++ rest /\
    Forall (fun ev => is_step_event ev = false) rest.
Proof.
  unfold body. intros H. unfold bind at 1 in H.
  destruct (train_step env k s) as [s1 [l | e]] eqn:T; [| discriminate].
  apply train_step_trace in T as [_ T].
  match type of H with
  | ?m s1 = _ => assert (Q : follows (appended after_step) m)
  end.
  { apply follows_bind; [apply appended_trans | apply reduce_losses_after_step |].
    intros r. unfold check_finite, bump.
    apply follows_bind; [apply appended_trans | stay_after_step |]. intros _.
    apply follows_bind; [apply appended_trans | stay_after_step |]. intros _.
    apply follows_bind; [apply appended_trans | stay_after_step |]. intros _.
    apply follows_bind; [apply appended_trans | apply report_after_step |]. intros _.
    apply follows_bind; [apply appended_trans | apply validate_after_step |]. intros _.
    stay_after_step. }
  specialize (Q s1). rewrite H in Q. destruct Q as [t [Et Ft]]. cbn in Et.
  exists (map snd t). split.
  - unfold events in *. rewrite Et, map_app, T. unfold step_events.
    now rewrite <- app_assoc.
  - clear Et. induction Ft as [| p t Hp _ IH]; constructor; assumption.
Qed.

Lemma filter_no_step rest :
  Forall (fun ev => is_step_event ev = false) rest ->
  filter is_step_event rest = [].
Proof.
  induction 1 as [| ev rest Hev _ IH]; [reflexivity |].
  cbn. now rewrite Hev.
Qed.

Lemma body_steps k s s' c :
  body cfg env k s = (s', Ok c) ->
  filter is_step_event (events s') =
    filter is_step_event (events s) ++ step_events env k.
Proof.
  intros H. apply body_events in H as (rest & E & F).
  rewrite E, !filter_app, (filter_no_step rest F), app_nil_r. reflexivity.
Qed.

Lemma steps_from_S k n :
  steps_from env k (S n) = step_events env k ++ steps_from env (S k) n.
Proof. reflexivity. Qed.

Lemma steps_from_app k a b :
  steps_from env k (a + b) = steps_from env k a ++ steps_from env (k + a) b.
Proof.
  revert k. induction a as [| a IH]; intros k.
  - cbn. now rewrite Nat.add_0_r.
  - cbn [Nat.add]. rewrite !steps_from_S, IH, <- app_assoc.
    now replace (S k + a)%nat with (k + S a)%nat by lia.
Qed.

(** A pass over the data that returns made one training step per batch it
    fetched. *)
Lemma for_batches_steps n : forall s s',
  for_batches cfg env n s = (s', Ok tt) ->
  (clock s <= clock s')%nat /\
  filter is_step_event (events s') =
    filter is_step_event (events s) ++ steps_from env (clock s) (clock s' - clock s).
Proof.
  induction n as [| n IH]; intros s s' H.
  - cbn in H. injection H as <-. split; [lia |].
    rewrite Nat.sub_diag. cbn. now rewrite app_nil_r.
  - cbn [for_batches] in H.
    apply bind_Ok in H as (s1 & a & G & H).
    unfold get in G. injection G as <- <-.
    apply bind_Ok in H as (s2 & [] & Mr & H).
    assert (s2 = s) as ->.
    { unfold may_raise in Mr. destruct (raises env CNextBatch (clock s));
        [discriminate | now injection Mr]. }
    apply bind_Ok in H as (s3 & [] & Md & H).
    unfold modify in Md. injection Md as <-.
    apply bind_Ok in H as (s4 & c & Bd & H).
    pose proof (body_counters cfg env (clock s) (set_clock (S (clock s)) s)) as (C4 & _).
    rewrite Bd in C4. cbn in C4.
    apply body_steps in Bd. change (events (set_clock (S (clock s)) s)) with (events s) in Bd.
    destruct c.
    + destruct (IH s4 s' H) as [Hle E]. split; [lia |].
      rewrite E, Bd, <- app_assoc. f_equal.
      replace (clock s' - clock s)%nat with (S (clock s' - clock s4)) by lia.
      rewrite steps_from_S, C4. reflexivity.
    + injection H as <-. split; [lia |].
      rewrite Bd, C4. replace (S (clock s) - clock s)%nat with 1%nat by lia.
      cbn [steps_from]. now rewrite app_nil_r.
Qed.

Lemma while_loop_steps fuel : forall s s',
  while_loop cfg env fuel s = Some (s', Ok tt) ->
  (clock s <= clock s')%nat /\
  filter is_step_event (events s') =
    filter is_step_event (events s) ++ steps_from env (clock s) (clock s' - clock s).
Proof.
  induction fuel as [| fuel IH]; intros s s' H; [discriminate |].
  cbn [while_loop] in H.
  destruct (iteration s <? iterations cfg).
  - destruct (for_batches cfg env (epoch_batches env (epoch s))
                (set_epoch (S (epoch s)) (set_losses [] [] s)))
      as [s1 [[] | e]] eqn:F; [| discriminate].
    apply for_batches_steps in F as [L1 E1].
    change (clock (set_epoch (S (epoch s)) (set_losses [] [] s))) with (clock s) in *.
    change (events (set_epoch (S (epoch s)) (set_losses [] [] s))) with (events s) in E1.
    destruct (IH s1 s' H) as [L2 E2]. split; [lia |].
    rewrite E2, E1, <- app_assoc. f_equal.
    replace (clock s' - clock s)%nat
      with ((clock s1 - clock s) + (clock s' - clock s1))%nat by lia.
    rewrite steps_from_app. do 2 f_equal. lia.
  - injection H as <-. split; [lia |].
    rewrite Nat.sub_diag. cbn. now rewrite app_nil_r.
Qed.

End Step.

(** * Arithmetic of the losses *)

Lemma seqv_refl x : seqv x x.
Proof. destruct x; cbn; [reflexivity | exact I]. Qed.

Lemma sadd_seqv x y z : seqv x y -> seqv (sadd x z) (sadd y z).
Proof.
  destruct x, y, z; cbn; try tauto. intros H. now rewrite H.
Qed.

Lemma fold_sadd_seqv l : forall x y,
  seqv x y -> seqv (fold_left sadd l x) (fold_left sadd l y).
Proof.
  induction l as [| z l IH]; intros x y H; cbn; [exact H |].
  apply IH, sadd_seqv, H.
Qed.

Lemma sdiv_seqv x y n : seqv x y -> seqv (sdiv x n) (sdiv y n).
Proof.
  destruct x, y; cbn; try tauto. intros H.
  destruct (n =? 0); cbn; [exact I | now rewrite H].
Qed.

Lemma sadd_zero x : seqv x (sadd (Fin 0) x).
Proof. destruct x; cbn; [now rewrite Qplus_0_l | exact I]. Qed.

(** The sum of the all-reduce divided by the number of workers is the mean
    of the values of all the workers. *)
Lemma mean_over_workers x l n :
  Z.of_nat (length l) = n - 1 ->
  seqv (sdiv (fold_left sadd l x) n) (smean (x :: l)).
Proof.
  intros H. unfold smean, ssum. cbn [fold_left length].
  replace (Z.of_nat (S (length l))) with n by lia.
  apply sdiv_seqv, fold_sadd_seqv, sadd_zero.
Qed.

(** * The plateau scheduler *)

(** Mode ['min']: a metric improves when it is strictly below the best one. *)
Lemma is_better_lt m b : is_better m (Some b) = true <-> (m < b)%Q.
Proof.
  unfold is_better, Qltb. rewrite negb_true_iff. split.
  - intros H. apply Qnot_le_lt. intros Hle. apply Qle_bool_iff in Hle. congruence.
  - intros H. destruct (Qle_bool b m) eqn:E; [| reflexivity].
    apply Qle_bool_iff in E. exfalso. exact (Qlt_not_le _ _ H E).
Qed.

Lemma is_better_le m b : is_better m (Some b) = false <-> (b <= m)%Q.
Proof. unfold is_better, Qltb. rewrite negb_false_iff. apply Qle_bool_iff. Qed.

(** The first metric, or a metric below the best one: it becomes the best
    one, the count of steps without improvement starts again and the
    optimizer is left as it is. *)
Lemma scheduler_step_improves m p o :
  sched_best p = None \/ (exists b, sched_best p = Some b /\ (m < b)%Q) ->
  scheduler_step m p o = ({| sched_best := Some m; sched_num_bad := 0 |}, o).
Proof.
  intros H.
  assert (B : is_better m (sched_best p) = true).
  { destruct H as [-> | (b & -> & L)]; [reflexivity | now apply is_better_lt]. }
  unfold scheduler_step. rewrite B. reflexivity.
Qed.

(** Up to [patience] steps in a row without improvement are only counted. *)
Lemma scheduler_step_waits m p o b :
  sched_best p = Some b ->
  (b <= m)%Q ->
  (sched_num_bad p < patience)%nat ->
  scheduler_step m p o =
    ({| sched_best := Some b; sched_num_bad := S (sched_num_bad p) |}, o).
Proof.
  intros E L N.
  assert (B : is_better m (sched_best p) = false)
    by (rewrite E; now apply is_better_le).
  unfold scheduler_step. rewrite B, E. cbn zeta.
  destruct (patience <? S (sched_num_bad p))%nat eqn:T; [| reflexivity].
  apply Nat.ltb_lt in T. lia.
Qed.

(** More than [patience] steps in a row without improvement: the learning
    rate is multiplied by [factor] and the count starts again. *)
Lemma scheduler_step_reduces m p o b :
  sched_best p = Some b ->
  (b <= m)%Q ->
  (patience <= sched_num_bad p)%nat ->
  scheduler_step m p o =
    ({| sched_best := Some b; sched_num_bad := 0 |},
     {| opt_lr := (opt_lr o * factor)%Q; opt_steps := opt_steps o |}).
Proof.
  intros E L N.
  assert (B : is_better m (sched_best p) = false)
    by (rewrite E; now apply is_better_le).
  unfold scheduler_step. rewrite B, E. cbn zeta.
  destruct (patience <? S (sched_num_bad p))%nat eqn:T; [reflexivity |].
  apply Nat.ltb_ge in T. lia.
Qed.

(** Counting from an improvement, the third validation in a row without
    improvement halves the learning rate, the first two do not. *)
Lemma third_bad_validation_halves m1 m2 m3 p o b :
  sched_best p = Some b ->
  sched_num_bad p = 0%nat ->
  (b <= m1)%Q -> (b <= m2)%Q -> (b <= m3)%Q ->
  snd (scheduler_steps [m1] p o) = o /\
  snd (scheduler_steps [m1; m2] p o) = o /\
  scheduler_steps [m1; m2; m3] p o =
    ({| sched_best := Some b; sched_num_bad := 0 |},
     {| opt_lr := (opt_lr o * (1 # 2))%Q; opt_steps := opt_steps o |}).
Proof.
  intros E N L1 L2 L3. destruct p as [pb pn]. cbn in E, N. subst pb pn.
  cbn [scheduler_steps].
  rewrite (scheduler_step_waits m1 {| sched_best := Some b; sched_num_bad := 0 |}
             o b eq_refl L1) by (cbn; unfold patience; lia).
  cbn [fst snd sched_num_bad].
  rewrite (scheduler_step_waits m2 {| sched_best := Some b; sched_num_bad := 1 |}
             o b eq_refl L2) by (cbn; unfold patience; lia).
  cbn [fst snd sched_num_bad].
  rewrite (scheduler_step_reduces m3 {| sched_best := Some b; sched_num_bad := 2 |}
             o b eq_refl L3) by (cbn; unfold patience; lia).
  auto.
Qed.

Section Validation.

Variable cfg : Config.
Variable env : Env.

(** A validation that is due and gives a number steps the scheduler with
    that number, whatever happens afterwards. *)
Lemma validate_steps_scheduler k s s' r f1_m :
  truthy (val_annotations cfg) = true ->
  validation_due cfg (iteration s) s = (s, Ok true) ->
  raises env CInfer k = None ->
  validation env k = InferNum f1_m ->
  raises env CSchedulerStep k = None ->
  validate cfg env k s = (s', r) ->
  scheduler s' = fst (scheduler_step f1_m (scheduler s) (optimizer s)) /\
  optimizer s' = snd (scheduler_step f1_m (scheduler s) (optimizer s)) /\
  exists rest,
    events s' =
      events s ++
      [EInfer (default "" (val_annotations cfg)) (mixed_precision cfg);
       EPrint (LF1 f1_m); ESchedulerStep f1_m] ++ rest.
Proof.
  intros V D Hi Hv Hs. unfold validate. rewrite V.
  unfold bind at 1, get at 1. cbn beta iota.
  unfold bind at 1. rewrite D. cbn beta iota.
  unfold save_model, call, may_raise. rewrite Hi, Hv, Hs.
  run_block; cbn; intros H; injection H as <- _;
    (split; [reflexivity |]); (split; [reflexivity |]);
    unfold events; cbn; rewrite !map_app; cbn; rewrite <- !app_assoc; cbn;
    eexists; reflexivity.
Qed.

End Validation.

(** * The dictionary at the end of the loop *)

Lemma same_state_refl s : same_state s s.
Proof. reflexivity. Qed.

Lemma same_state_trans s1 s2 s3 :
  same_state s1 s2 -> same_state s2 s3 -> same_state s1 s3.
Proof. unfold same_state. congruence. Qed.

Ltac keep_state :=
  cbv zeta;
  repeat match goal with
         | |- follows _ (ret _) => apply (follows_ret _ same_state_refl)
         | |- follows _ (raise _) => apply (follows_raise _ same_state_refl)
         | |- follows _ get => apply (follows_get _ same_state_refl)
         | |- follows _ (may_raise _ _ _) =>
             apply (follows_may_raise _ same_state_refl)
         | |- follows _ (modify _) => apply follows_modify; intros ?; reflexivity
         | |- follows _ (bind _ _) =>
             apply (follows_bind _ same_state_trans); [| intros ?]
         | |- follows _ (if ?b then _ else _) => destruct b
         | |- follows _ (match ?x with _ => _ end) => destruct x
         end.

Section Checkpoint.

Variable cfg : Config.
Variable env : Env.

Lemma train_step_state k : follows same_state (train_step env k).
Proof. unfold train_step, call, emit. keep_state. Qed.

Lemma reduce_losses_state k c b : follows same_state (reduce_losses cfg env k c b).
Proof. unfold reduce_losses, all_reduce, call, emit. keep_state. Qed.

Lemma check_finite_state c b : follows same_state (check_finite cfg c b).
Proof. unfold check_finite. keep_state. Qed.

Lemma validate_state k : follows same_state (validate cfg env k).
Proof.
  unfold validate, validation_due, save_model, call, emit. keep_state.
Qed.

(** On the master, the pass through the body that reaches [iterations]
    leaves the three entries in the dictionary. *)
Lemma body_break_state k s s' :
  is_master cfg = true ->
  body cfg env k s = (s', Ok Break) ->
  checkpointed cfg (state s').
Proof.
  intros Hm H. unfold body in H.
  apply bind_Ok in H as (s1 & l & T & H).
  apply bind_Ok in H as (s2 & r & Rd & H).
  apply bind_Ok in H as (s3 & [] & Ck & H).
  apply bind_Ok in H as (s4 & [] & Inc & H).
  apply bind_Ok in H as (s5 & [] & Bp & H).
  apply bind_Ok in H as (s6 & [] & Rp & H).
  apply bind_Ok in H as (s7 & [] & Vl & H).
  apply bind_Ok in H as (s8 & a & G & H).
  unfold get in G. injection G as <- <-.
  destruct (iteration s7 =? iterations cfg) eqn:B; [| discriminate].
  injection H as <-. apply Z.eqb_eq in B.
  unfold modify in Inc. injection Inc as <-.
  unfold bump, modify in Bp. injection Bp as <-.
  match type of Rp with
  | report _ _ _ ?x = _ => remember x as sb eqn:Esb
  end.
  assert (Ib : iteration sb = iteration s3 + 1) by (rewrite Esb; reflexivity).
  pose proof (report_counters cfg env k sb) as C6.
  pose proof (validate_counters cfg env k s6) as C7.
  pose proof (validate_state k s6) as S7.
  rewrite Rp in C6. rewrite Vl in C7, S7.
  destruct C6 as (I6 & _). destruct C7 as (I7 & _). cbn in I6, I7, S7.
  assert (D : report_due cfg sb = true).
  { unfold report_due. rewrite Hm. cbn.
    replace (iteration sb =? iterations cfg) with true
      by (symmetry; apply Z.eqb_eq; lia).
    apply orb_true_r. }
  pose proof (report_state cfg env k sb D) as S6. rewrite Rp in S6.
  specialize (S6 eq_refl). cbn [fst] in S6.
  unfold same_state in S7. rewrite S7, S6.
  destruct (state_update_lookup sb) as (L1 & L2 & L3).
  unfold checkpointed. repeat split.
  - rewrite L1. do 2 f_equal. lia.
  - eexists. exact L2.
  - eexists. exact L3.
Qed.



End Checkpoint.

(** * Properties of [train] *)

Section Claims.

Variable cfg : Config.
Variable env : Env.

(** C5: a progress report reaches the console, the TensorBoard writer or the
    metrics service only on the master worker and only when, at that moment,
    the accumulated train time exceeds 2 seconds or the iteration counter
    equals [iterations]; the console line needs [verbose], the TensorBoard
    scalars need a [logdir] other than [None], the metrics post needs a truthy
    [metrics_url]. *)
Theorem progress_reports_are_gated fuel state0 s o st ev :
  train cfg env fuel state0 = Some (s, o) ->
  In (st, ev) (trace s) ->
  match ev with
  | EPrint (LProgress _ _ _ _ _) =>
      is_master cfg = true /\
      ((2 < at_total st)%Q \/ at_iteration st = iterations cfg) /\
      verbose cfg = true
  | EAddScalar _ _ _ =>
      is_master cfg = true /\
      ((2 < at_total st)%Q \/ at_iteration st = iterations cfg) /\
      logdir cfg <> None
  | EPostMetrics _ _ _ _ =>
      is_master cfg = true /\
      ((2 < at_total st)%Q \/ at_iteration st = iterations cfg) /\
      truthy (metrics_url cfg) = true
  | _ => True
  end.
Proof.
  intros H Hin.
  destruct (train_trace cfg env fuel state0 s o H) as (t0 & t1 & t2 & E & F0 & F1 & F2).
  rewrite E in Hin. apply in_app_or in Hin as [Hin | Hin].
  - apply (proj1 (List.Forall_forall _ _) F0) in Hin.
    unfold setup_event_ok in Hin. cbn in Hin.
    destruct ev as [| | | | [] | | | | | | | | | | | |]; try exact I; contradiction.
  - apply in_app_or in Hin as [Hin | Hin].
    + apply (proj1 (List.Forall_forall _ _) F1) in Hin.
      unfold loop_event_ok, reported in Hin. cbn in Hin.
      destruct ev as [| | | | [] | | | | | | | | | | | |]; try exact I; tauto.
    + apply (proj1 (List.Forall_forall _ _) F2) in Hin.
      unfold final_event_ok in Hin. cbn in Hin.
      destruct ev as [| | | | [] | | | | | | | | | | | |]; try exact I; contradiction.
Qed.


(** C10: when [logdir] is not [None], a run that returns has closed the
    TensorBoard writer it created during the set-up, as its last action and
    not before; a run whose loop ended with a caught exception does return,
    after printing the exception and closing the writer. *)
Theorem writer_closed_before_return fuel state0 d :
  logdir cfg = Some d ->
  (forall s,
      train cfg env fuel state0 = Some (s, Returned) ->
      exists t,
        events s = t ++ [EWriterClose] /\
        In (ESummaryWriter d) t /\ ~ In EWriterClose t) /\
  (forall s0 s1 e,
      setup cfg (initial cfg state0) = (s0, Ok tt) ->
      loop cfg env fuel s0 = Some (s1, Raise e) ->
      is_Exception e = true ->
      exists s,
        train cfg env fuel state0 = Some (s, Returned) /\
        events s = events s1 ++ [EPrint (LException e); EWriterClose]).
Proof.
  intros L. split.
  - intros s H. unfold train in H.
    pose proof (setup_ok cfg (initial cfg state0)) as [t0 [E0 F0]].
    pose proof (setup_writer cfg (initial cfg state0) d L) as W.
    destruct (setup cfg (initial cfg state0)) as [s0 [[] | e]]; [| discriminate].
    cbn in E0, W. destruct (W eq_refl) as (l & st & El).
    destruct (loop cfg env fuel s0) as [[s1 r] |] eqn:Lp; [| discriminate].
    apply loop_ok in Lp as [t1 [E1 F1]].
    assert (Hw : In (ESummaryWriter d) (events s1)).
    { unfold events. rewrite E1, El, !map_app. cbn.
      apply in_or_app. left. apply in_or_app. right. left. reflexivity. }
    assert (Hc : ~ In EWriterClose (events s1)).
    { unfold events. rewrite E1, map_app. intros Hin.
      apply in_app_or in Hin as [Hin | Hin].
      - rewrite E0 in Hin. exact (setup_no_close cfg t0 F0 Hin).
      - exact (loop_no_close cfg t1 F1 Hin). }
    unfold finish, close_writer in H. rewrite L in H.
    destruct r as [[] | e].
    + injection H as <-. exists (events s1). unfold events. cbn.
      rewrite map_app. cbn. auto.
    + destruct (is_Exception e); [| discriminate].
      injection H as <-. exists (events s1 ++ [EPrint (LException e)]).
      unfold events. cbn. rewrite !map_app. cbn. repeat split.
      * apply in_or_app. left. exact Hw.
      * intros Hin. apply in_app_or in Hin as [Hin | [Hin | []]];
          [exact (Hc Hin) | discriminate].
  - intros s0 s1 e S Lp X. unfold train. rewrite S, Lp.
    unfold finish, close_writer. rewrite X, L.
    eexists. split; [reflexivity |].
    unfold events. cbn. rewrite !map_app. cbn. now rewrite <- app_assoc.
Qed.

(** C8 (amended): an exception raised inside the loop that is an instance of
    [Exception] -- the [RuntimeError] of a non-finite loss on the master
    worker is one -- is caught and printed, training stops there and [train]
    returns after closing the writer; an exception that derives from
    [BaseException] only, such as [KeyboardInterrupt], is not caught and
    reaches the caller. *)
Theorem loop_exceptions_are_caught fuel state0 s0 :
  setup cfg (initial cfg state0) = (s0, Ok tt) ->
  (forall s1 e,
      loop cfg env fuel s0 = Some (s1, Raise e) ->
      is_Exception e = true ->
      train cfg env fuel state0 =
        Some (close_writer cfg (log (EPrint (LException e)) s1), Returned)) /\
  (forall s1 e,
      loop cfg env fuel s0 = Some (s1, Raise e) ->
      is_Exception e = false ->
      train cfg env fuel state0 = Some (s1, Propagated e)) /\
  (forall c b s,
      is_master cfg = true ->
      isfinite (sadd c b) = false ->
      check_finite cfg c b s = (s, Raise diverging) /\
      is_Exception diverging = true).
Proof.
  intros S. repeat split.
  - intros s1 e Lp X. unfold train. rewrite S, Lp. unfold finish. now rewrite X.
  - intros s1 e Lp X. unfold train. rewrite S, Lp. unfold finish. now rewrite X.
  - unfold check_finite. rewrite H, H0. reflexivity.
Qed.

(** C6 (amended): when every pass over the data yields at least one batch
    the loop terminates.  It starts from the count stored in [state] (0 when
    absent), each processed batch adds exactly 1 to the count, and the body
    breaks exactly when the count equals [iterations].  Unless an exception
    ends it earlier, the loop processes [iterations] minus the initial count
    batches, none when the initial count is not below [iterations]; when an
    exception ends it, the count has not passed [iterations]. *)
Theorem loop_terminates_and_counts s0 fuel :
  (forall e, (1 <= epoch_batches env e)%nat) ->
  (state s0 !! "iteration" = None \/
   exists z, state s0 !! "iteration" = Some (VInt z)) ->
  (Z.to_nat (iterations cfg - start_iteration (state s0)) < fuel)%nat ->
  (exists s r,
      loop cfg env fuel s0 = Some (s, r) /\
      match r with
      | Ok _ =>
          iteration s = Z.max (start_iteration (state s0)) (iterations cfg) /\
          Z.of_nat (clock s) =
            Z.of_nat (clock s0) +
            Z.max 0 (iterations cfg - start_iteration (state s0))
      | Raise _ =>
          start_iteration (state s0) <= iteration s
            <= Z.max (start_iteration (state s0)) (iterations cfg) /\
          Z.of_nat (clock s0) + (iteration s - start_iteration (state s0))
            <= Z.of_nat (clock s)
            <= Z.of_nat (clock s0) + (iteration s - start_iteration (state s0)) + 1
      end) /\
  (forall k s s' c,
      body cfg env k s = (s', Ok c) ->
      iteration s' = iteration s + 1 /\
      clock s' = clock s /\
      (c = Break <-> iteration s' = iterations cfg)).
Proof.
  intros Hne Hst Hf. split.
  - unfold loop, start_iteration in *.
    destruct Hst as [Hst | [z Hst]]; rewrite Hst in *.
    + destruct (while_loop_spec cfg env fuel (set_iteration 0 s0) Hne)
        as (s & r & W & P); [cbn; lia |].
      exists s, r. split; [exact W |]. cbn in P. destruct r; lia.
    + destruct (while_loop_spec cfg env fuel (set_iteration z s0) Hne)
        as (s & r & W & P); [cbn; lia |].
      exists s, r. split; [exact W |]. cbn in P. destruct r; lia.
  - intros k s s' c H.
    pose proof (body_counters cfg env k s) as (C & _ & B).
    rewrite H in C, B. cbn in C, B. destruct B as [I1 Br].
    repeat split; try assumption.
    + intros ->. rewrite I1. now apply Br.
    + intros Heq. apply Br. lia.
Qed.

(** C7: the step made for a batch performs, in this order, the zeroing of the
    gradients, the forward pass that produces the classification and the box
    loss, the backward pass on the scaled sum of the two losses and the
    optimizer step; nothing else of the iteration comes before them and none
    of the four is repeated in it.  In a loop that runs to its end these
    calls are, batch after batch, all the calls of the four kinds. *)
Theorem step_order :
  (forall k s s' c,
      body cfg env k s = (s', Ok c) ->
      exists rest,
        events s' =
          events s ++
          [EZeroGrad; EForward;
           EBackward (tadd (fst (forward env k)) (snd (forward env k)));
           EOptimizerStep] ++ rest /\
        Forall (fun ev => is_step_event ev = false) rest) /\
  (forall fuel s0 s,
      loop cfg env fuel s0 = Some (s, Ok tt) ->
      filter is_step_event (events s) =
        filter is_step_event (events s0) ++
        steps_from env (clock s0) (clock s - clock s0)).
Proof.
  split.
  - intros k s s' c H. exact (body_events cfg env k s s' c H).
  - intros fuel s0 s H. unfold loop in H.
    destruct (state s0 !! "iteration") as [[z | | |] |]; try discriminate.
    + exact (proj2 (while_loop_steps cfg env fuel (set_iteration z s0) s H)).
    + exact (proj2 (while_loop_steps cfg env fuel (set_iteration 0 s0) s H)).
Qed.

(** C4: with [world > 1], the classification and the box loss that the
    master records for an iteration are the all-reduce sums of the batch
    means of the workers divided by [world], that is the means over all the
    workers of their batch-mean losses. *)
Theorem losses_are_averaged_over_workers k cls_t box_t s s' r :
  1 < world cfg ->
  is_master cfg = true ->
  Z.of_nat (length (peers env k)) = world cfg - 1 ->
  reduce_losses cfg env k cls_t box_t s = (s', Ok r) ->
  cls_losses s' = cls_losses s ++ [fst r] /\
  box_losses s' = box_losses s ++ [snd r] /\
  fst r = sdiv (fold_left sadd (map (pick Cls) (peers env k)) (smean cls_t)) (world cfg) /\
  snd r = sdiv (fold_left sadd (map (pick Box) (peers env k)) (smean box_t)) (world cfg) /\
  seqv (fst r) (smean (smean cls_t :: map (pick Cls) (peers env k))) /\
  seqv (snd r) (smean (smean box_t :: map (pick Box) (peers env k))).
Proof.
  intros W Hm Hp. unfold reduce_losses, all_reduce.
  apply Z.ltb_lt in W. rewrite W, Hm.
  run_block; cbn; intros H; try discriminate.
  injection H as <- <-. cbn. repeat split.
  - apply mean_over_workers. now rewrite length_map.
  - apply mean_over_workers. now rewrite length_map.
Qed.

(** C2: a validation that produces a number steps the scheduler with that
    number.  The scheduler of line 55 (mode ['min'], factor 0.5, patience 2)
    halves the learning rate of the optimizer when the metric was not below
    the best one on more than 2 validations in a row; up to 2 such
    validations are only counted, and a metric below the best one, or the
    first metric, starts the count again; in both cases the learning rate
    stays as it is.  From a new scheduler, once a first metric is followed
    by three metrics that are not below it, the third of them halves the
    learning rate and the first two do not. *)
Theorem lr_reduced_on_plateau k s s' r f1_m :
  truthy (val_annotations cfg) = true ->
  validation_due cfg (iteration s) s = (s, Ok true) ->
  raises env CInfer k = None ->
  validation env k = InferNum f1_m ->
  raises env CSchedulerStep k = None ->
  validate cfg env k s = (s', r) ->
  (exists rest,
      events s' =
        events s ++
        [EInfer (default "" (val_annotations cfg)) (mixed_precision cfg);
         EPrint (LF1 f1_m); ESchedulerStep f1_m] ++ rest) /\
  scheduler s' = fst (scheduler_step f1_m (scheduler s) (optimizer s)) /\
  optimizer s' = snd (scheduler_step f1_m (scheduler s) (optimizer s)) /\
  (forall best,
      sched_best (scheduler s) = Some best ->
      (best <= f1_m)%Q ->
      (2 <= sched_num_bad (scheduler s))%nat ->
      opt_lr (optimizer s') = (opt_lr (optimizer s) * (1 # 2))%Q /\
      opt_steps (optimizer s') = opt_steps (optimizer s) /\
      scheduler s' = {| sched_best := Some best; sched_num_bad := 0 |}) /\
  (forall best,
      sched_best (scheduler s) = Some best ->
      (best <= f1_m)%Q ->
      (sched_num_bad (scheduler s) < 2)%nat ->
      optimizer s' = optimizer s /\
      scheduler s' =
        {| sched_best := Some best;
           sched_num_bad := S (sched_num_bad (scheduler s)) |}) /\
  (sched_best (scheduler s) = None \/
   (exists best, sched_best (scheduler s) = Some best /\ (f1_m < best)%Q) ->
   optimizer s' = optimizer s /\
   scheduler s' = {| sched_best := Some f1_m; sched_num_bad := 0 |}) /\
  (forall m0 m1 m2 m3 o,
      (m0 <= m1)%Q -> (m0 <= m2)%Q -> (m0 <= m3)%Q ->
      snd (scheduler_steps [m0] ReduceLROnPlateau o) = o /\
      snd (scheduler_steps [m0; m1] ReduceLROnPlateau o) = o /\
      snd (scheduler_steps [m0; m1; m2] ReduceLROnPlateau o) = o /\
      opt_lr (snd (scheduler_steps [m0; m1; m2; m3] ReduceLROnPlateau o)) =
        (opt_lr o * (1 # 2))%Q).
Proof.
  intros V D Hi Hv Hs H.
  destruct (validate_steps_scheduler cfg env k s s' r f1_m V D Hi Hv Hs H)
    as (Es & Eo & Ev).
  split; [exact Ev |]. split; [exact Es |]. split; [exact Eo |].
  split; [| split; [| split]].
  - intros best B L N.
    rewrite Es, Eo, (scheduler_step_reduces f1_m _ _ best B L N). cbn. auto.
  - intros best B L N.
    rewrite Es, Eo, (scheduler_step_waits f1_m _ _ best B L N). cbn. auto.
  - intros B. rewrite Es, Eo, (scheduler_step_improves f1_m _ _ B). cbn. auto.
  - intros m0 m1 m2 m3 o L1 L2 L3.
    assert (S0 : scheduler_step m0 ReduceLROnPlateau o =
                 ({| sched_best := Some m0; sched_num_bad := 0 |}, o))
      by (apply scheduler_step_improves; left; reflexivity).
    destruct (third_bad_validation_halves m1 m2 m3
                {| sched_best := Some m0; sched_num_bad := 0 |} o m0
                eq_refl eq_refl L1 L2 L3) as (T1 & T2 & T3).
    assert (S1 : forall l,
               scheduler_steps (m0 :: l) ReduceLROnPlateau o =
               scheduler_steps l {| sched_best := Some m0; sched_num_bad := 0 |} o).
    { intros l. cbn [scheduler_steps]. rewrite S0. reflexivity. }
    rewrite !S1.
    split; [reflexivity |]. split; [exact T1 |]. split; [exact T2 |].
    rewrite T3. reflexivity.
Qed.

End Claims.

(** C1: what the code does with [mixed_precision = True].  The level handed
    to [amp.initialize] is ['O0'], the level of a full-precision run, while
    the console line printed before training says ['mixed']. *)
Theorem amp_level_ignores_mixed_precision :
  opt_level true = "O0" /\
  opt_level false = "O0" /\
  precision_label true = "mixed" /\
  precision_label false = "full" /\
  forall cfg s,
  exists rest,
    events (fst (setup cfg s)) =
      events s ++ EAmpInitialize "O0" loss_scale (is_master cfg) :: rest.
Proof.
  repeat split. intros cfg s. unfold setup.
  assert (O : opt_level (mixed_precision cfg) = "O0")
    by (destruct (mixed_precision cfg); reflexivity).
  rewrite O.
  run_block; unfold events; cbn; rewrite !map_app; cbn; rewrite <- !app_assoc;
    cbn; eexists; reflexivity.
Qed.

(** C3: what the code does at a validation point that comes before the
    first report of a new training.  The master validates at iteration 1 and
    then fails on [state['iteration']]: the weights are not saved and the
    training ends there. *)
Theorem validation_before_first_report_does_not_save :
  option_map (fun r => (events (fst r), snd r, iteration (fst r)))
             (train ex_cfg ex_env 10 ex_state_new) =
  Some ([EAmpInitialize "O0" 128 true; EModelTrain;
         EPrint LPreparing; EPrint LDataIterator;
         EPrint (LDevice 1); EPrint (LBatch 2 "mixed");
         EPrint (LTraining 3); EPrint (LTensorBoard "logs");
         ESummaryWriter "logs"; EZeroGrad; EForward;
         EBackward [Fin 3]; EOptimizerStep; EInfer "val.json" true;
         EPrint (LF1 1); ESchedulerStep 1; EModelTrain;
         EPrint (LException (KeyError "iteration")); EWriterClose],
        Returned, 1).
Proof. vm_compute. reflexivity. Qed.

Lemma progress_reports_are_gated_witness :
  is_master ex_cfg = true /\
  ((2 < 4 # 4)%Q \/ 3 = iterations ex_cfg) /\
  verbose ex_cfg = true.
Proof.
  eapply (progress_reports_are_gated ex_cfg ex_env 10%nat ex_state_resumed _ _
            {| at_iteration := 3; at_total := 4 # 4 |}
            (EPrint (LProgress 3 3 (Fin (2 # 2)) (Fin (4 # 2)) (1 # 100)))).
  - vm_compute. reflexivity.
  - vm_compute. repeat first [left; reflexivity | right].
Defined.


Lemma writer_closed_before_return_witness :
  logdir ex_cfg = Some "logs" /\
  exists s,
    train ex_cfg ex_env 10 ex_state_resumed = Some (s, Returned) /\
    exists t,
      events s = t ++ [EWriterClose] /\
      In (ESummaryWriter "logs") t /\ ~ In EWriterClose t.
Proof.
  split; [reflexivity |].
  assert (E : exists s, train ex_cfg ex_env 10 ex_state_resumed = Some (s, Returned))
    by (eexists; vm_compute; reflexivity).
  destruct E as [s E]. exists s. split; [exact E |].
  exact (proj1 (writer_closed_before_return ex_cfg ex_env 10%nat ex_state_resumed
                  "logs" eq_refl) s E).
Defined.

Lemma loop_exceptions_are_caught_witness :
  exists s0 s1,
    setup ex_cfg (initial ex_cfg ex_state_new) = (s0, Ok tt) /\
    loop ex_cfg ex_env_diverge 10 s0 = Some (s1, Raise diverging) /\
    is_Exception diverging = true /\
    train ex_cfg ex_env_diverge 10 ex_state_new =
      Some (close_writer ex_cfg (log (EPrint (LException diverging)) s1), Returned).
Proof.
  assert (S : exists s0, setup ex_cfg (initial ex_cfg ex_state_new) = (s0, Ok tt))
    by (eexists; vm_compute; reflexivity).
  destruct S as [s0 S].
  assert (L : exists s1, loop ex_cfg ex_env_diverge 10 s0 = Some (s1, Raise diverging)).
  { vm_compute in S. injection S as <-. eexists. vm_compute. reflexivity. }
  destruct L as [s1 L]. exists s0, s1.
  split; [exact S |]. split; [exact L |]. split; [reflexivity |].
  exact (proj1 (loop_exceptions_are_caught ex_cfg ex_env_diverge 10%nat
                  ex_state_new s0 S) s1 diverging L eq_refl).
Defined.

(** C8, as stated: an interrupt from the keyboard during the forward pass of
    the first batch is raised inside the loop, is not caught, and [train]
    does not return. *)
Lemma loop_exceptions_are_caught_counterexample :
  is_Exception KeyboardInterrupt = false /\
  option_map (fun r => (events (fst r), snd r))
             (train ex_cfg ex_env_interrupt 10 ex_state_new) =
  Some ([EAmpInitialize "O0" 128 true; EModelTrain;
         EPrint LPreparing; EPrint LDataIterator;
         EPrint (LDevice 1); EPrint (LBatch 2 "mixed");
         EPrint (LTraining 3); EPrint (LTensorBoard "logs");
         ESummaryWriter "logs"; EZeroGrad],
        Propagated KeyboardInterrupt).
Proof. split; [reflexivity | vm_compute; reflexivity]. Qed.

Lemma loop_terminates_and_counts_witness :
  (forall e, (1 <= epoch_batches ex_env e)%nat) /\
  (exists z, state (initial ex_cfg ex_state_resumed) !! "iteration" = Some (VInt z)) /\
  (Z.to_nat (iterations ex_cfg - start_iteration ex_state_resumed) < 5)%nat /\
  exists s r,
    loop ex_cfg ex_env 5 (initial ex_cfg ex_state_resumed) = Some (s, r) /\
    match r with
    | Ok _ =>
        iteration s = Z.max (start_iteration ex_state_resumed) (iterations ex_cfg) /\
        Z.of_nat (clock s) =
          Z.of_nat (clock (initial ex_cfg ex_state_resumed)) +
          Z.max 0 (iterations ex_cfg - start_iteration ex_state_resumed)
    | Raise _ =>
        start_iteration ex_state_resumed <= iteration s
          <= Z.max (start_iteration ex_state_resumed) (iterations ex_cfg) /\
        Z.of_nat (clock (initial ex_cfg ex_state_resumed)) +
          (iteration s - start_iteration ex_state_resumed)
          <= Z.of_nat (clock s)
          <= Z.of_nat (clock (initial ex_cfg ex_state_resumed)) +
             (iteration s - start_iteration ex_state_resumed) + 1
    end.
Proof.
  assert (H1 : forall e, (1 <= epoch_batches ex_env e)%nat) by (intros e; cbn; lia).
  assert (H2 : exists z,
             state (initial ex_cfg ex_state_resumed) !! "iteration" = Some (VInt z))
    by (exists 1; reflexivity).
  assert (H3 : (Z.to_nat (iterations ex_cfg -
                          start_iteration (state (initial ex_cfg ex_state_resumed))) < 5)%nat)
    by (vm_compute; lia).
  split; [exact H1 |]. split; [exact H2 |]. split; [exact H3 |].
  exact (proj1 (loop_terminates_and_counts ex_cfg ex_env
                  (initial ex_cfg ex_state_resumed) 5%nat H1 (or_intror H2) H3)).
Defined.

(** C6, as stated: with two batches per pass, a loss that is not finite ends
    the loop during the first batch, so that none of the 3 requested
    iterations is completed; and a training resumed at iteration 5 with 3
    iterations requested processes no batch, where the difference is -2. *)
Lemma loop_terminates_and_counts_counterexample :
  (forall e, (1 <= epoch_batches ex_env_diverge e)%nat) /\
  iterations ex_cfg - start_iteration ex_state_new = 3 /\
  option_map (fun r => (snd r, iteration (fst r), clock (fst r)))
             (train ex_cfg ex_env_diverge 10 ex_state_new) =
    Some (Returned, 0, 1%nat) /\
  iterations ex_cfg - start_iteration ex_state_done = -2 /\
  option_map (fun r => (snd r, iteration (fst r), clock (fst r)))
             (train ex_cfg ex_env 10 ex_state_done) =
    Some (Returned, 5, 0%nat).
Proof.
  split; [intros e; cbn; lia |].
  repeat split; vm_compute; reflexivity.
Qed.

Lemma step_order_witness :
  exists s' c,
    body ex_cfg ex_env 0 (initial ex_cfg ex_state_resumed) = (s', Ok c) /\
    exists rest,
      events s' =
        events (initial ex_cfg ex_state_resumed) ++
        [EZeroGrad; EForward;
         EBackward (tadd (fst (forward ex_env 0)) (snd (forward ex_env 0)));
         EOptimizerStep] ++ rest /\
      Forall (fun ev => is_step_event ev = false) rest.
Proof.
  assert (B : exists s' c,
             body ex_cfg ex_env 0 (initial ex_cfg ex_state_resumed) = (s', Ok c))
    by (eexists; eexists; vm_compute; reflexivity).
  destruct B as (s' & c & B). exists s', c. split; [exact B |].
  exact (proj1 (step_order ex_cfg ex_env) 0%nat
               (initial ex_cfg ex_state_resumed) s' c B).
Defined.

Lemma losses_are_averaged_over_workers_witness :
  1 < world ex_cfg_two /\
  is_master ex_cfg_two = true /\
  Z.of_nat (length (peers ex_env_two 0)) = world ex_cfg_two - 1 /\
  exists s' r,
    reduce_losses ex_cfg_two ex_env_two 0 [Fin 1] [Fin 2]
                  (initial ex_cfg_two ex_state_new) = (s', Ok r) /\
    cls_losses s' = [fst r] /\
    box_losses s' = [snd r] /\
    seqv (fst r) (smean [smean [Fin 1]; Fin 3]) /\
    seqv (snd r) (smean [smean [Fin 2]; Fin 4]).
Proof.
  assert (H1 : 1 < world ex_cfg_two) by (cbn; lia).
  assert (H3 : Z.of_nat (length (peers ex_env_two 0)) = world ex_cfg_two - 1)
    by reflexivity.
  split; [exact H1 |]. split; [reflexivity |]. split; [exact H3 |].
  assert (R : exists s' r,
             reduce_losses ex_cfg_two ex_env_two 0 [Fin 1] [Fin 2]
                           (initial ex_cfg_two ex_state_new) = (s', Ok r))
    by (eexists; eexists; vm_compute; reflexivity).
  destruct R as (s' & r & R). exists s', r. split; [exact R |].
  destruct (losses_are_averaged_over_workers ex_cfg_two ex_env_two 0%nat
              [Fin 1] [Fin 2] (initial ex_cfg_two ex_state_new) s' r
              H1 eq_refl H3 R) as (C & B & _ & _ & Sc & Sb).
  split; [exact C |]. split; [exact B |]. split; [exact Sc | exact Sb].
Defined.

(** Four validations in a row that give 1/2, 1, 1 and 1: the fourth one
    halves the learning rate, and so does the run of [train] that makes
    them. *)
Lemma lr_reduced_on_plateau_witness :
  exists s1 s2 s3 s4,
    validate ex_cfg_long ex_env_plateau 0 (initial ex_cfg_long ex_state_resumed) =
      (s1, Ok tt) /\
    validate ex_cfg_long ex_env_plateau 1 s1 = (s2, Ok tt) /\
    validate ex_cfg_long ex_env_plateau 2 s2 = (s3, Ok tt) /\
    validate ex_cfg_long ex_env_plateau 3 s3 = (s4, Ok tt) /\
    scheduler s3 = {| sched_best := Some (1 # 2); sched_num_bad := 2 |} /\
    validation ex_env_plateau 3 = InferNum 1 /\
    (1 # 2 <= 1)%Q /\
    opt_lr (optimizer s3) = 1 # 100 /\
    opt_lr (optimizer s4) = ((1 # 100) * (1 # 2))%Q /\
    scheduler s4 = {| sched_best := Some (1 # 2); sched_num_bad := 0 |} /\
    option_map (fun r => (snd r, iteration (fst r), opt_lr (optimizer (fst r))))
               (train ex_cfg_long ex_env_plateau 10 ex_state_resumed) =
      Some (Returned, 5, ((1 # 100) * (1 # 2))%Q).
Proof.
  pose (s0 := initial ex_cfg_long ex_state_resumed).
  pose (s1 := fst (validate ex_cfg_long ex_env_plateau 0 s0)).
  pose (s2 := fst (validate ex_cfg_long ex_env_plateau 1 s1)).
  pose (s3 := fst (validate ex_cfg_long ex_env_plateau 2 s2)).
  pose (s4 := fst (validate ex_cfg_long ex_env_plateau 3 s3)).
  assert (V4 : validate ex_cfg_long ex_env_plateau 3 s3 = (s4, Ok tt))
    by (vm_compute; reflexivity).
  assert (D3 : validation_due ex_cfg_long (iteration s3) s3 = (s3, Ok true))
    by (vm_compute; reflexivity).
  assert (P3 : scheduler s3 = {| sched_best := Some (1 # 2); sched_num_bad := 2 |})
    by (vm_compute; reflexivity).
  assert (O3 : opt_lr (optimizer s3) = 1 # 100) by (vm_compute; reflexivity).
  assert (L : (1 # 2 <= 1)%Q) by (unfold Qle; cbn; lia).
  exists s1, s2, s3, s4.
  split; [vm_compute; reflexivity |].
  split; [vm_compute; reflexivity |].
  split; [vm_compute; reflexivity |].
  split; [exact V4 |]. split; [exact P3 |]. split; [reflexivity |].
  split; [exact L |]. split; [exact O3 |].
  destruct (lr_reduced_on_plateau ex_cfg_long ex_env_plateau 3%nat s3 s4 (Ok tt) 1
              eq_refl D3 eq_refl eq_refl eq_refl V4)
    as (_ & _ & _ & Halve & _).
  assert (B : sched_best (scheduler s3) = Some (1 # 2)) by (rewrite P3; reflexivity).
  assert (N : (2 <= sched_num_bad (scheduler s3))%nat) by (rewrite P3; cbn; lia).
  destruct (Halve (1 # 2) B L N) as (Hl & _ & Hp).
  split; [rewrite Hl, O3; reflexivity |].
  split; [exact Hp | vm_compute; reflexivity].
Defined.

(** * Further properties of [train] *)

Section Gates.

Variable cfg : Config.
Variable env : Env.

(** X1: a call of [infer], a step of the scheduler and a save happen only
    with a truthy [val_annotations] and only at an iteration that equals
    [iterations] or, [val_iterations] being other than 0, is a multiple of
    it; a save happens only on the master. *)
Theorem validation_and_save_are_gated fuel state0 s o st ev :
  train cfg env fuel state0 = Some (s, o) ->
  In (st, ev) (trace s) ->
  match ev with
  | EInfer _ _ | ESchedulerStep _ | EPrint (LF1 _) =>
      truthy (val_annotations cfg) = true /\
      (at_iteration st = iterations cfg \/
       (val_iterations cfg <> 0 /\ at_iteration st mod val_iterations cfg = 0))
  | ESave _ | EPrint (LSaving _) =>
      (truthy (val_annotations cfg) = true /\
       (at_iteration st = iterations cfg \/
        (val_iterations cfg <> 0 /\ at_iteration st mod val_iterations cfg = 0))) /\
      is_master cfg = true
  | _ => True
  end.
Proof.
  intros H Hin.
  destruct (train_trace cfg env fuel state0 s o H) as (t0 & t1 & t2 & E & F0 & F1 & F2).
  rewrite E in Hin. apply in_app_or in Hin as [Hin | Hin].
  - apply (proj1 (List.Forall_forall _ _) F0) in Hin.
    unfold setup_event_ok in Hin. cbn in Hin.
    destruct ev as [| | | | [] | | | | | | | | | | | |]; try exact I; contradiction.
  - apply in_app_or in Hin as [Hin | Hin].
    + apply (proj1 (List.Forall_forall _ _) F1) in Hin.
      unfold loop_event_ok, validated in Hin. cbn in Hin.
      destruct ev as [| | | | [] | | | | | | | | | | | |]; try exact I; exact Hin.
    + apply (proj1 (List.Forall_forall _ _) F2) in Hin.
      unfold final_event_ok in Hin. cbn in Hin.
      destruct ev as [| | | | [] | | | | | | | | | | | |]; try exact I; contradiction.
Qed.

(** X2: with [world] at most 1 the run wraps the model in no
    [DistributedDataParallel] and makes no [all_reduce]. *)
Theorem single_process_makes_no_collective_call fuel state0 s o st ev :
  world cfg <= 1 ->
  train cfg env fuel state0 = Some (s, o) ->
  In (st, ev) (trace s) ->
  ev <> EDistributedDataParallel /\ forall kind x, ev <> EAllReduce kind x.
Proof.
  intros W H Hin.
  destruct (train_trace cfg env fuel state0 s o H) as (t0 & t1 & t2 & E & F0 & F1 & F2).
  rewrite E in Hin. apply in_app_or in Hin as [Hin | Hin].
  - apply (proj1 (List.Forall_forall _ _) F0) in Hin.
    unfold setup_event_ok in Hin. cbn in Hin.
    split; [intros -> | intros kind x ->]; cbn in Hin; [lia | contradiction].
  - apply in_app_or in Hin as [Hin | Hin].
    + apply (proj1 (List.Forall_forall _ _) F1) in Hin.
      unfold loop_event_ok in Hin. cbn in Hin.
      split; [intros -> | intros kind x ->]; cbn in Hin; [contradiction | lia].
    + apply (proj1 (List.Forall_forall _ _) F2) in Hin.
      unfold final_event_ok in Hin. cbn in Hin.
      split; [intros -> | intros kind x ->]; cbn in Hin; contradiction.
Qed.

(** X3: a run that ends with an exception reaching the caller has printed no
    exception and has not closed the TensorBoard writer; when the exception
    comes from the loop it is not an instance of [Exception], and the writer
    that the set-up created for a [logdir] stays open. *)
Theorem propagated_exception_leaves_writer_open fuel state0 s e :
  train cfg env fuel state0 = Some (s, Propagated e) ->
  ~ In EWriterClose (events s) /\
  (forall e', ~ In (EPrint (LException e')) (events s)) /\
  (snd (setup cfg (initial cfg state0)) = Ok tt ->
   is_Exception e = false /\
   forall d, logdir cfg = Some d -> In (ESummaryWriter d) (events s)).
Proof.
  intros H. unfold train in H.
  pose proof (setup_ok cfg (initial cfg state0)) as [t0 [E0 F0]].
  pose proof (setup_writer cfg (initial cfg state0)) as W.
  destruct (setup cfg (initial cfg state0)) as [s0 [[] | e0]]; cbn in E0, W.
  - destruct (loop cfg env fuel s0) as [[s1 r] |] eqn:Lp; [| discriminate].
    apply loop_ok in Lp as [t1 [E1 F1]].
    unfold finish in H. destruct r as [[] | e1]; [discriminate |].
    destruct (is_Exception e1) eqn:X; [discriminate |].
    injection H as <- <-.
    assert (Ev : events s1 = map snd t0 ++ map snd t1)
      by (unfold events; now rewrite E1, E0, map_app).
    rewrite Ev. repeat split.
    + intros Hin. apply in_app_or in Hin as [Hin | Hin];
        [exact (setup_no_close cfg t0 F0 Hin) | exact (loop_no_close cfg t1 F1 Hin)].
    + intros e' Hin. apply in_app_or in Hin as [Hin | Hin];
        apply in_map_iff in Hin as ([st ev] & Eq & Hin); cbn in Eq; subst ev.
      * apply (proj1 (List.Forall_forall _ _) F0) in Hin. exact Hin.
      * apply (proj1 (List.Forall_forall _ _) F1) in Hin. exact Hin.
    + exact X.
    + intros d L. destruct (W d L eq_refl) as (l & st & El).
      apply in_or_app. left. rewrite <- E0, El, map_app. cbn.
      apply in_or_app. right. left. reflexivity.
  - injection H as <- <-. unfold events. rewrite E0. repeat split.
    + exact (setup_no_close cfg t0 F0).
    + intros e' Hin. apply in_map_iff in Hin as ([st ev] & Eq & Hin).
      cbn in Eq. subst ev.
      apply (proj1 (List.Forall_forall _ _) F0) in Hin. exact Hin.
    + discriminate.
    + discriminate.
Qed.

End Gates.

Section Edges.

Variable cfg : Config.
Variable env : Env.

Lemma setup_state : follows same_state (setup cfg).
Proof. unfold setup, emit. keep_state. Qed.

Lemma while_loop_empty fuel : forall s,
  (forall e, epoch_batches env e = 0%nat) ->
  iteration s < iterations cfg ->
  while_loop cfg env fuel s = None.
Proof.
  induction fuel as [| fuel IH]; intros s He Hlt; [reflexivity |].
  cbn [while_loop].
  replace (iteration s <? iterations cfg) with true
    by (symmetry; now apply Z.ltb_lt).
  rewrite He. cbn [for_batches]. unfold ret.
  apply IH; [exact He | exact Hlt].
Qed.

(** X4: when the data iterator yields no batch and the stored iteration
    count is below [iterations], the loop never ends: whatever the fuel, the
    run does not return. *)
Theorem empty_data_never_terminates state0 fuel :
  (forall e, epoch_batches env e = 0%nat) ->
  snd (setup cfg (initial cfg state0)) = Ok tt ->
  (state0 !! "iteration" = None \/ exists z, state0 !! "iteration" = Some (VInt z)) ->
  start_iteration state0 < iterations cfg ->
  train cfg env fuel state0 = None.
Proof.
  intros He S Hst Hlt. unfold train.
  pose proof (setup_state (initial cfg state0)) as Fs. unfold same_state in Fs.
  destruct (setup cfg (initial cfg state0)) as [s0 [[] | e]]; [| discriminate].
  cbn in Fs. unfold loop. rewrite Fs. unfold start_iteration in Hlt.
  destruct Hst as [Hst | [z Hst]]; rewrite Hst in *.
  - now rewrite (while_loop_empty fuel (set_iteration 0 s0) He Hlt).
  - now rewrite (while_loop_empty fuel (set_iteration z s0) He Hlt).
Qed.

End Edges.

Lemma empty_data_never_terminates_witness :
  (forall e, epoch_batches ex_env_empty e = 0%nat) /\
  snd (setup ex_cfg (initial ex_cfg ex_state_resumed)) = Ok tt /\
  (exists z, ex_state_resumed !! "iteration" = Some (VInt z)) /\
  start_iteration ex_state_resumed < iterations ex_cfg /\
  train ex_cfg ex_env_empty 1000 ex_state_resumed = None.
Proof.
  assert (H1 : forall e, epoch_batches ex_env_empty e = 0%nat) by reflexivity.
  assert (H2 : snd (setup ex_cfg (initial ex_cfg ex_state_resumed)) = Ok tt)
    by (vm_compute; reflexivity).
  assert (H3 : exists z, ex_state_resumed !! "iteration" = Some (VInt z))
    by (exists 1; reflexivity).
  assert (H4 : start_iteration ex_state_resumed < iterations ex_cfg)
    by (vm_compute; reflexivity).
  repeat (split; [assumption |]).
  exact (empty_data_never_terminates ex_cfg ex_env_empty ex_state_resumed 1000%nat
           H1 H2 (or_intror H3) H4).
Defined.

Section ZeroValIterations.

Variable cfg : Config.
Variable env : Env.

Hypothesis val_on : truthy (val_annotations cfg) = true.
Hypothesis val_zero : val_iterations cfg = 0.

(** Away from the last iteration the test of line 159 divides by zero. *)
Lemma validate_zero k s :
  iteration s <> iterations cfg ->
  validate cfg env k s = (s, Raise ZeroDivisionError).
Proof.
  intros Hne. unfold validate. rewrite val_on.
  unfold bind, get, validation_due. cbn.
  replace (iteration s =? iterations cfg) with false
    by (symmetry; now apply Z.eqb_neq).
  rewrite val_zero. reflexivity.
Qed.

(** No pass through the body completes before the last iteration. *)
Lemma body_zero k s s' c :
  iteration s + 1 <> iterations cfg ->
  body cfg env k s = (s', Ok c) -> False.
Proof.
  intros Hne H. unfold body in H.
  apply bind_Ok in H as (s1 & l & T & H).
  apply bind_Ok in H as (s2 & r & Rd & H).
  apply bind_Ok in H as (s3 & [] & Ck & H).
  apply bind_Ok in H as (s4 & [] & Inc & H).
  apply bind_Ok in H as (s5 & [] & Bp & H).
  apply bind_Ok in H as (s6 & [] & Rp & H).
  apply bind_Ok in H as (s7 & [] & Vl & _).
  unfold modify in Inc. injection Inc as <-.
  unfold bump, modify in Bp. injection Bp as <-.
  pose proof (train_step_counters env k s) as C1. rewrite T in C1.
  pose proof (reduce_losses_counters cfg env k (fst l) (snd l) s1) as C2.
  rewrite Rd in C2.
  pose proof (check_finite_counters cfg (fst r) (snd r) s2) as C3. rewrite Ck in C3.
  match type of Rp with
  | report _ _ _ ?x = _ => pose proof (report_counters cfg env k x) as C6
  end.
  rewrite Rp in C6.
  destruct C1 as (I1 & _), C2 as (I2 & _), C3 as (I3 & _), C6 as (I6 & _).
  cbn in I1, I2, I3, I6.
  rewrite validate_zero in Vl by lia. discriminate.
Qed.

Lemma for_batches_zero n s s' r :
  iteration s + 1 <> iterations cfg ->
  for_batches cfg env (S n) s = (s', r) ->
  (exists e, r = Raise e) /\
  iteration s' <= iteration s + 1 /\ (clock s' <= S (clock s))%nat.
Proof.
  intros Hne H. cbn [for_batches] in H.
  unfold bind at 1, get in H. cbn beta iota in H.
  unfold bind at 1, may_raise in H.
  destruct (raises env CNextBatch (clock s)).
  { unfold raise in H. injection H as <- <-. split; [eauto | split; lia]. }
  unfold ret at 1 in H. cbn beta iota in H.
  unfold bind at 1, modify at 1 in H. cbn beta iota in H.
  unfold bind at 1 in H.
  pose proof (body_counters cfg env (clock s) (set_clock (S (clock s)) s)) as (C & _ & B).
  destruct (body cfg env (clock s) (set_clock (S (clock s)) s)) as [s4 [c | e]] eqn:Bd.
  - exfalso. exact (body_zero _ (set_clock (S (clock s)) s) _ _ Hne Bd).
  - injection H as <- <-. cbn in C, B. split; [eauto | split; lia].
Qed.

(** X5: with a validation set and [val_iterations = 0], a training that has
    more than one iteration to make stops with an exception during its first
    batch; a body that gets as far as the test of line 159 raises
    [ZeroDivisionError] there. *)
Theorem zero_val_iterations_stops_training s0 fuel :
  (state s0 !! "iteration" = None \/
   exists z, state s0 !! "iteration" = Some (VInt z)) ->
  start_iteration (state s0) + 1 < iterations cfg ->
  (1 <= epoch_batches env (epoch s0))%nat ->
  (0 < fuel)%nat ->
  (exists s e,
      loop cfg env fuel s0 = Some (s, Raise e) /\
      iteration s <= start_iteration (state s0) + 1 /\
      (clock s <= S (clock s0))%nat) /\
  (forall k s,
      iteration s <> iterations cfg ->
      validate cfg env k s = (s, Raise ZeroDivisionError)).
Proof.
  intros Hst Hlt Hn Hf. split; [| exact validate_zero].
  destruct fuel as [| fuel]; [lia |].
  assert (W : forall z, z + 1 < iterations cfg ->
              exists s e,
                while_loop cfg env (S fuel) (set_iteration z s0) = Some (s, Raise e) /\
                iteration s <= z + 1 /\ (clock s <= S (clock s0))%nat).
  { intros z Hz. cbn [while_loop].
    replace (iteration (set_iteration z s0) <? iterations cfg) with true
      by (symmetry; apply Z.ltb_lt; cbn; lia).
    change (epoch (set_iteration z s0)) with (epoch s0).
    destruct (epoch_batches env (epoch s0)) as [| n]; [lia |].
    destruct (for_batches cfg env (S n)
                (set_epoch (S (epoch s0)) (set_losses [] [] (set_iteration z s0))))
      as [s1 r] eqn:F.
    apply for_batches_zero in F as ([e ->] & I1 & C1); [| cbn; lia].
    exists s1, e. cbn in I1, C1. repeat split; [lia | lia]. }
  unfold loop, start_iteration in *.
  destruct Hst as [Hst | [z Hst]]; rewrite Hst in *; apply W; exact Hlt.
Qed.

End ZeroValIterations.

Lemma zero_val_iterations_stops_training_witness :
  truthy (val_annotations ex_cfg_zero) = true /\
  val_iterations ex_cfg_zero = 0 /\
  state (initial ex_cfg_zero ex_state_new) !! "iteration" = None /\
  start_iteration (state (initial ex_cfg_zero ex_state_new)) + 1 < iterations ex_cfg_zero /\
  (1 <= epoch_batches ex_env (epoch (initial ex_cfg_zero ex_state_new)))%nat /\
  exists s e,
    loop ex_cfg_zero ex_env 1 (initial ex_cfg_zero ex_state_new) = Some (s, Raise e) /\
    iteration s <= start_iteration (state (initial ex_cfg_zero ex_state_new)) + 1 /\
    (clock s <= S (clock (initial ex_cfg_zero ex_state_new)))%nat.
Proof.
  assert (H3 : state (initial ex_cfg_zero ex_state_new) !! "iteration" = None)
    by reflexivity.
  assert (H4 : start_iteration (state (initial ex_cfg_zero ex_state_new)) + 1
               < iterations ex_cfg_zero) by (vm_compute; reflexivity).
  assert (H5 : (1 <= epoch_batches ex_env (epoch (initial ex_cfg_zero ex_state_new)))%nat)
    by (cbn; lia).
  split; [reflexivity |]. split; [reflexivity |].
  split; [exact H3 |]. split; [exact H4 |]. split; [exact H5 |].
  exact (proj1 (zero_val_iterations_stops_training ex_cfg_zero ex_env
                  eq_refl eq_refl (initial ex_cfg_zero ex_state_new) 1%nat
                  (or_introl H3) H4 H5 (Nat.lt_0_succ 0))).
Defined.

Lemma snoc_two {A} (l : list A) x y : (l ++ [x]) ++ [y] = l ++ [x; y].
Proof. now rewrite <- app_assoc. Qed.

Section LastBody.

Variable cfg : Config.
Variable env : Env.

(** What holds after the pass through the body that breaks holds at the end
    of a loop that had something to do. *)
Variable Q : St -> Prop.
Hypothesis body_Q : forall k s s', body cfg env k s = (s', Ok Break) -> Q s'.

Lemma for_batches_last n : forall s s',
  iteration s < iterations cfg ->
  for_batches cfg env n s = (s', Ok tt) ->
  iteration s' = iterations cfg ->
  Q s'.
Proof.
  induction n as [| n IH]; intros s s' Hlt H He.
  - cbn in H. injection H as <-. lia.
  - cbn [for_batches] in H.
    apply bind_Ok in H as (s1 & a & G & H).
    unfold get in G. injection G as <- <-.
    apply bind_Ok in H as (s2 & [] & Mr & H).
    assert (s2 = s) as ->.
    { unfold may_raise in Mr. destruct (raises env CNextBatch (clock s));
        [discriminate | now injection Mr]. }
    apply bind_Ok in H as (s3 & [] & Md & H).
    unfold modify in Md. injection Md as <-.
    apply bind_Ok in H as (s4 & c & Bd & H).
    pose proof (body_counters cfg env (clock s) (set_clock (S (clock s)) s)) as (_ & _ & Bc).
    rewrite Bd in Bc. cbn in Bc. destruct Bc as [I4 Br].
    destruct c.
    + apply (IH s4 s'); try assumption.
      destruct (Z.eq_dec (iteration s + 1) (iterations cfg)) as [Heq | Hne]; [| lia].
      apply Br in Heq. discriminate.
    + injection H as <-. exact (body_Q _ _ _ Bd).
Qed.

Lemma while_loop_last fuel : forall s s',
  iteration s < iterations cfg ->
  while_loop cfg env fuel s = Some (s', Ok tt) ->
  Q s'.
Proof.
  induction fuel as [| fuel IH]; intros s s' Hlt H; [discriminate |].
  cbn [while_loop] in H.
  replace (iteration s <? iterations cfg) with true in H
    by (symmetry; now apply Z.ltb_lt).
  destruct (for_batches cfg env (epoch_batches env (epoch s))
              (set_epoch (S (epoch s)) (set_losses [] [] s)))
    as [s1 [[] | e]] eqn:F; [| discriminate].
  pose proof (for_batches_spec cfg env _
                (set_epoch (S (epoch s)) (set_losses [] [] s)) _ _ Hlt F)
    as (_ & I1 & _).
  cbn in I1.
  destruct (Z.lt_ge_cases (iteration s1) (iterations cfg)) as [Hlt1 | Hge1].
  - exact (IH s1 s' Hlt1 H).
  - assert (He : iteration s1 = iterations cfg) by lia.
    destruct fuel as [| fuel']; [discriminate |]. cbn [while_loop] in H.
    replace (iteration s1 <? iterations cfg) with false in H
      by (symmetry; apply Z.ltb_ge; lia).
    injection H as <-.
    exact (for_batches_last _
             (set_epoch (S (epoch s)) (set_losses [] [] s)) _ Hlt F He).
Qed.

End LastBody.

Section FinalCheckpoint.

Variable cfg : Config.
Variable env : Env.

Hypothesis val_on : truthy (val_annotations cfg) = true.
Hypothesis master : is_master cfg = true.

(** A validation at the last iteration that returns ended with the save of
    the dictionary. *)
Lemma validate_final_save k s s' v :
  iteration s = iterations cfg ->
  state s !! "iteration" = Some v ->
  validate cfg env k s = (s', Ok tt) ->
  state s' = state s /\
  exists t, events s' = t ++ [EPrint (LSaving v); ESave (state s)].
Proof.
  intros He Hv. revert Hv. unfold validate, save_model. rewrite val_on, master.
  unfold bind at 1, get at 1. cbn beta iota. unfold validation_due.
  replace (iteration s =? iterations cfg) with true
    by (symmetry; now apply Z.eqb_eq).
  run_block; cbn; intros Hv H; try discriminate;
    injection H as <-; injection Hv as ->;
    (split; [reflexivity |]); unfold events; cbn; rewrite !map_app; cbn;
    eexists; apply snoc_two.
Qed.

Lemma body_break_saves k s s' :
  body cfg env k s = (s', Ok Break) ->
  ends_with_final_save cfg s'.
Proof.
  intros H. pose proof (body_break_state cfg env k s s' master H) as Ck.
  unfold body in H.
  apply bind_Ok in H as (s1 & l & T & H).
  apply bind_Ok in H as (s2 & r & Rd & H).
  apply bind_Ok in H as (s3 & [] & Chk & H).
  apply bind_Ok in H as (s4 & [] & Inc & H).
  apply bind_Ok in H as (s5 & [] & Bp & H).
  apply bind_Ok in H as (s6 & [] & Rp & H).
  apply bind_Ok in H as (s7 & [] & Vl & H).
  apply bind_Ok in H as (s8 & a & G & H).
  unfold get in G. injection G as <- <-.
  destruct (iteration s7 =? iterations cfg) eqn:B; [| discriminate].
  injection H as <-. apply Z.eqb_eq in B.
  pose proof (validate_counters cfg env k s6) as C7. rewrite Vl in C7.
  destruct C7 as (I7 & _). cbn in I7.
  pose proof (validate_state cfg env k s6) as S7. rewrite Vl in S7.
  unfold same_state in S7. cbn in S7.
  destruct Ck as (L1 & L2 & L3).
  destruct (validate_final_save k s6 s7 (VInt (iterations cfg))) as (_ & t & Et);
    [lia | now rewrite <- S7 | exact Vl |].
  split.
  - exists t. rewrite Et, S7. reflexivity.
  - repeat split; assumption.
Qed.

(** X6: on the master with a validation set, a loop that had iterations to
    make and ran to its end finished by saving the dictionary, and that
    dictionary records [iterations] as its iteration together with an
    optimizer and a scheduler entry. *)
Theorem completed_training_ends_with_checkpoint fuel s0 s :
  (state s0 !! "iteration" = None \/
   exists z, state s0 !! "iteration" = Some (VInt z)) ->
  start_iteration (state s0) < iterations cfg ->
  loop cfg env fuel s0 = Some (s, Ok tt) ->
  (exists t,
      events s =
        t ++ [EPrint (LSaving (VInt (iterations cfg))); ESave (state s)]) /\
  state s !! "iteration" = Some (VInt (iterations cfg)) /\
  (exists o, state s !! "optimizer" = Some (VOptimizer o)) /\
  (exists p, state s !! "scheduler" = Some (VScheduler p)).
Proof.
  intros Hst Hlt H. unfold loop, start_iteration in *.
  assert (W : forall z, z < iterations cfg ->
              while_loop cfg env fuel (set_iteration z s0) = Some (s, Ok tt) ->
              ends_with_final_save cfg s).
  { intros z Hz. apply (while_loop_last cfg env (ends_with_final_save cfg)).
    - exact body_break_saves.
    - exact Hz. }
  destruct Hst as [Hst | [z Hst]]; rewrite Hst in *; exact (W _ Hlt H).
Qed.

End FinalCheckpoint.

Lemma completed_training_ends_with_checkpoint_witness :
  truthy (val_annotations ex_cfg_plain) = true /\
  is_master ex_cfg_plain = true /\
  (exists z, state (initial ex_cfg_plain ex_state_resumed) !! "iteration" = Some (VInt z)) /\
  start_iteration (state (initial ex_cfg_plain ex_state_resumed)) < iterations ex_cfg_plain /\
  exists s,
    loop ex_cfg_plain ex_env 10 (initial ex_cfg_plain ex_state_resumed) = Some (s, Ok tt) /\
    (exists t,
        events s =
          t ++ [EPrint (LSaving (VInt (iterations ex_cfg_plain))); ESave (state s)]) /\
    state s !! "iteration" = Some (VInt (iterations ex_cfg_plain)).
Proof.
  assert (H3 : exists z,
             state (initial ex_cfg_plain ex_state_resumed) !! "iteration" = Some (VInt z))
    by (exists 1; reflexivity).
  assert (H4 : start_iteration (state (initial ex_cfg_plain ex_state_resumed))
               < iterations ex_cfg_plain) by (vm_compute; reflexivity).
  split; [reflexivity |]. split; [reflexivity |].
  split; [exact H3 |]. split; [exact H4 |].
  assert (L : exists s,
             loop ex_cfg_plain ex_env 10 (initial ex_cfg_plain ex_state_resumed) = Some (s, Ok tt))
    by (eexists; vm_compute; reflexivity).
  destruct L as [s L]. exists s. split; [exact L |].
  destruct (completed_training_ends_with_checkpoint ex_cfg_plain ex_env eq_refl eq_refl
              10%nat (initial ex_cfg_plain ex_state_resumed) s (or_intror H3) H4 L)
    as (E & I & _).
  split; [exact E | exact I].
Defined.

Section Worker.

Variable cfg : Config.
Variable env : Env.

Hypothesis worker : is_master cfg = false.

Lemma report_worker k : follows same_state (report cfg env k).
Proof.
  unfold report. apply (follows_bind _ same_state_trans).
  - apply (follows_get _ same_state_refl).
  - intros a. unfold report_due. rewrite worker. cbn [andb].
    apply (follows_ret _ same_state_refl).
Qed.

Lemma body_worker k : follows same_state (body cfg env k).
Proof.
  unfold body.
  apply (follows_bind _ same_state_trans); [apply train_step_state | intros l].
  apply (follows_bind _ same_state_trans); [apply reduce_losses_state | intros r].
  apply (follows_bind _ same_state_trans); [apply check_finite_state | intros _].
  apply (follows_bind _ same_state_trans); [keep_state | intros _].
  apply (follows_bind _ same_state_trans); [unfold bump; keep_state | intros _].
  apply (follows_bind _ same_state_trans); [apply report_worker | intros _].
  apply (follows_bind _ same_state_trans); [apply validate_state | intros _].
  keep_state.
Qed.

Lemma for_batches_worker n : follows same_state (for_batches cfg env n).
Proof.
  induction n as [| n IH]; cbn [for_batches].
  - apply (follows_ret _ same_state_refl).
  - apply (follows_bind _ same_state_trans); [keep_state | intros a].
    apply (follows_bind _ same_state_trans); [keep_state | intros _].
    apply (follows_bind _ same_state_trans); [keep_state | intros _].
    apply (follows_bind _ same_state_trans); [apply body_worker | intros c].
    destruct c; [exact IH | apply (follows_ret _ same_state_refl)].
Qed.

Lemma while_loop_worker fuel : forall s s' r,
  while_loop cfg env fuel s = Some (s', r) -> state s' = state s.
Proof.
  induction fuel as [| fuel IH]; intros s s' r H; [discriminate |].
  cbn [while_loop] in H.
  destruct (iteration s <? iterations cfg).
  - pose proof (for_batches_worker (epoch_batches env (epoch s))
                  (set_epoch (S (epoch s)) (set_losses [] [] s))) as F.
    unfold same_state in F.
    destruct (for_batches cfg env _ _) as [s1 [[] | e]]; cbn in F.
    + rewrite (IH s1 s' r H). exact F.
    + injection H as <- _. exact F.
  - now injection H as <- _.
Qed.

(** X7: a worker that is not the master hands the [state] dictionary back
    as it received it, and makes no progress report, no TensorBoard
    announcement and no save. *)
Theorem worker_leaves_state_untouched fuel state0 s o :
  train cfg env fuel state0 = Some (s, o) ->
  state s = state0 /\
  forall st ev,
    In (st, ev) (trace s) ->
    match ev with
    | EPrint (LProgress _ _ _ _ _) | EPrint (LTensorBoard _) | EPrint (LSaving _)
    | EAddScalar _ _ _ | EPostMetrics _ _ _ _ | ESave _ => False
    | _ => True
    end.
Proof.
  intros H. split.
  - unfold train in H.
    pose proof (setup_state cfg (initial cfg state0)) as Fs. unfold same_state in Fs.
    destruct (setup cfg (initial cfg state0)) as [s0 [[] | e]]; cbn in Fs.
    + destruct (loop cfg env fuel s0) as [[s1 r] |] eqn:Lp; [| discriminate].
      assert (S1 : state s1 = state s0).
      { unfold loop in Lp.
        destruct (state s0 !! "iteration") as [[z | | |] |];
          try (now injection Lp as <- _);
          exact (while_loop_worker _ _ _ _ Lp). }
      unfold finish, close_writer in H.
      destruct r as [[] | e]; [| destruct (is_Exception e)];
        destruct (logdir cfg); injection H as <- _; cbn; congruence.
    + injection H as <- _. exact Fs.
  - intros st ev Hin.
    destruct (train_trace cfg env fuel state0 s o H) as (t0 & t1 & t2 & E & F0 & F1 & F2).
    rewrite E in Hin. apply in_app_or in Hin as [Hin | Hin].
    + apply (proj1 (List.Forall_forall _ _) F0) in Hin.
      unfold setup_event_ok in Hin. cbn in Hin.
      destruct ev as [| | | | [] | | | | | | | | | | | |]; try exact I;
        try contradiction.
      destruct Hin as (_ & Hm & _). congruence.
    + apply in_app_or in Hin as [Hin | Hin].
      * apply (proj1 (List.Forall_forall _ _) F1) in Hin.
        unfold loop_event_ok, reported in Hin. cbn in Hin.
        destruct ev as [| | | | [] | | | | | | | | | | | |]; try exact I;
          try contradiction; intuition congruence.
      * apply (proj1 (List.Forall_forall _ _) F2) in Hin.
        unfold final_event_ok in Hin. cbn in Hin.
        destruct ev as [| | | | [] | | | | | | | | | | | |]; try exact I;
          contradiction.
Qed.

End Worker.

Lemma worker_leaves_state_untouched_witness :
  is_master ex_cfg_worker = false /\
  exists s,
    train ex_cfg_worker ex_env_two 10 ex_state_checkpoint = Some (s, Returned) /\
    state s = ex_state_checkpoint.
Proof.
  split; [reflexivity |].
  assert (T : exists s,
             train ex_cfg_worker ex_env_two 10 ex_state_checkpoint = Some (s, Returned))
    by (eexists; vm_compute; reflexivity).
  destruct T as [s T]. exists s. split; [exact T |].
  exact (proj1 (worker_leaves_state_untouched ex_cfg_worker ex_env_two eq_refl
                  10%nat ex_state_checkpoint s Returned T)).
Defined.

(** * The iteration that a checkpoint records *)

Lemma saves_lagging_refl s : saves_lagging s s.
Proof. intros H. split; [exact H | apply appended_refl]. Qed.

Lemma saves_lagging_trans s1 s2 s3 :
  saves_lagging s1 s2 -> saves_lagging s2 s3 -> saves_lagging s1 s3.
Proof.
  intros H12 H23 H1. destruct (H12 H1) as [H2 A12].
  destruct (H23 H2) as [H3 A23]. split; [exact H3 |].
  exact (appended_trans _ _ _ _ A12 A23).
Qed.

(** An update that keeps the dictionary and the trace and does not move the
    counter back. *)
Lemma lag_quiet (f : St -> St) :
  (forall s, state (f s) = state s) ->
  (forall s, iteration s <= iteration (f s)) ->
  (forall s, trace (f s) = trace s) ->
  follows saves_lagging (modify f).
Proof.
  intros Hs Hi Ht. apply follows_modify. intros s Hinv. split.
  - intros v Hv. rewrite Hs in Hv. destruct (Hinv v Hv) as (z & -> & Hz).
    exists z. split; [reflexivity |]. specialize (Hi s). lia.
  - apply appended_same_trace, Ht.
Qed.

Lemma lag_emit ev :
  (forall st, save_event_ok (st, ev)) -> follows saves_lagging (modify (log ev)).
Proof.
  intros H. apply follows_modify. intros s Hinv. split.
  - exact Hinv.
  - apply appended_log, H.
Qed.

(** [state.update] writes the current iteration. *)
Lemma lag_update :
  follows saves_lagging (modify (fun s => set_state (state_update s) s)).
Proof.
  apply follows_modify. intros s _. split.
  - intros v Hv. cbn in Hv.
    destruct (state_update_lookup s) as (L & _). rewrite L in Hv.
    injection Hv as <-. exists (iteration s). split; [reflexivity | cbn; lia].
  - now apply appended_same_trace.
Qed.

(** The dictionary is saved as it is. *)
Lemma save_model_lag env k : follows saves_lagging (save_model env k).
Proof.
  intros s Hinv. unfold save_model, bind, get. cbn beta iota.
  destruct (state s !! "iteration") as [v |] eqn:L; [| exact (saves_lagging_refl s Hinv)].
  unfold call, may_raise, emit, bind, modify, raise, ret. cbn beta iota.
  destruct (Hinv v L) as (z & -> & Hz).
  destruct (raises env CSave k); cbn [fst]; (split; [exact Hinv |]);
    close_appended; try exact I.
  exists z. split; [exact L | exact Hz].
Qed.

Ltac keep_lag :=
  cbv zeta;
  repeat match goal with
         | |- follows _ (ret _) => apply (follows_ret _ saves_lagging_refl)
         | |- follows _ (raise _) => apply (follows_raise _ saves_lagging_refl)
         | |- follows _ get => apply (follows_get _ saves_lagging_refl)
         | |- follows _ (may_raise _ _ _) =>
             apply (follows_may_raise _ saves_lagging_refl)
         | |- follows _ (save_model _ _) => apply save_model_lag
         | |- follows _ (modify (log _)) => apply lag_emit; intros ?; exact I
         | |- follows _ (modify (fun s => set_state (state_update s) s)) =>
             apply lag_update
         | |- follows _ (modify _) =>
             apply lag_quiet; intros ?; [reflexivity | cbn; lia | reflexivity]
         | |- follows _ (bind _ _) =>
             apply (follows_bind _ saves_lagging_trans); [| intros ?]
         | |- follows _ (if ?b then _ else _) => destruct b
         | |- follows _ (match ?x with _ => _ end) => destruct x
         end.

Section Lagging.

Variable cfg : Config.
Variable env : Env.

Lemma train_step_lag k : follows saves_lagging (train_step env k).
Proof. unfold train_step, call, emit. keep_lag. Qed.

Lemma reduce_losses_lag k c b : follows saves_lagging (reduce_losses cfg env k c b).
Proof. unfold reduce_losses, all_reduce, call, emit. keep_lag. Qed.

Lemma report_lag k : follows saves_lagging (report cfg env k).
Proof. unfold report, stack_mean, statistics_mean, call, emit. keep_lag. Qed.

Lemma validate_lag k : follows saves_lagging (validate cfg env k).
Proof. unfold validate, validation_due, call, emit. keep_lag. Qed.

Lemma body_lag k : follows saves_lagging (body cfg env k).
Proof.
  unfold body.
  apply (follows_bind _ saves_lagging_trans); [apply train_step_lag | intros l].
  apply (follows_bind _ saves_lagging_trans); [apply reduce_losses_lag | intros r].
  apply (follows_bind _ saves_lagging_trans);
    [unfold check_finite; keep_lag | intros _].
  apply (follows_bind _ saves_lagging_trans); [keep_lag | intros _].
  apply (follows_bind _ saves_lagging_trans); [unfold bump; keep_lag | intros _].
  apply (follows_bind _ saves_lagging_trans); [apply report_lag | intros _].
  apply (follows_bind _ saves_lagging_trans); [apply validate_lag | intros _].
  keep_lag.
Qed.

Lemma for_batches_lag n : follows saves_lagging (for_batches cfg env n).
Proof.
  induction n as [| n IH]; cbn [for_batches].
  - apply (follows_ret _ saves_lagging_refl).
  - apply (follows_bind _ saves_lagging_trans); [keep_lag | intros a].
    apply (follows_bind _ saves_lagging_trans); [keep_lag | intros _].
    apply (follows_bind _ saves_lagging_trans); [keep_lag | intros _].
    apply (follows_bind _ saves_lagging_trans); [apply body_lag | intros c].
    destruct c; [exact IH | apply (follows_ret _ saves_lagging_refl)].
Qed.

Lemma while_loop_lag fuel : forall s s' r,
  while_loop cfg env fuel s = Some (s', r) -> saves_lagging s s'.
Proof.
  induction fuel as [| fuel IH]; intros s s' r H; [discriminate |].
  cbn [while_loop] in H.
  destruct (iteration s <? iterations cfg).
  - pose proof (for_batches_lag (epoch_batches env (epoch s))
                  (set_epoch (S (epoch s)) (set_losses [] [] s))) as F.
    assert (S0 : saves_lagging s (set_epoch (S (epoch s)) (set_losses [] [] s))).
    { intros Hinv. split; [exact Hinv | now apply appended_same_trace]. }
    destruct (for_batches cfg env _ _) as [s1 [[] | e]]; cbn in F.
    + eapply saves_lagging_trans; [| eapply IH; exact H].
      eapply saves_lagging_trans; [exact S0 | exact F].
    + injection H as <- _. eapply saves_lagging_trans; [exact S0 | exact F].
  - injection H as <- _. apply saves_lagging_refl.
Qed.

Lemma loop_lag fuel s s' r :
  loop cfg env fuel s = Some (s', r) -> appended save_event_ok s s'.
Proof.
  unfold loop. intros H.
  destruct (state s !! "iteration") as [[z | | |] |] eqn:L.
  2-4: injection H as <- _; apply appended_refl.
  - apply while_loop_lag in H. destruct H as [_ A].
    + intros v Hv. cbn in Hv. rewrite L in Hv. injection Hv as <-.
      exists z. split; [reflexivity | cbn; lia].
    + eapply appended_trans; [| exact A]. now apply appended_same_trace.
  - apply while_loop_lag in H. destruct H as [_ A].
    + intros v Hv. cbn in Hv. rewrite L in Hv. discriminate.
    + eapply appended_trans; [| exact A]. now apply appended_same_trace.
Qed.

(** X9: the dictionary of every save holds an int under ['iteration'], and
    that int is not ahead of the iteration at which the save is made. *)
Theorem saved_iteration_is_not_ahead fuel state0 s o st d :
  train cfg env fuel state0 = Some (s, o) ->
  In (st, ESave d) (trace s) ->
  exists z, d !! "iteration" = Some (VInt z) /\ z <= at_iteration st.
Proof.
  intros H Hin. unfold train in H.
  pose proof (setup_ok cfg (initial cfg state0)) as [t0 [E0 F0]].
  destruct (setup cfg (initial cfg state0)) as [s0 [[] | e]]; cbn in E0.
  - destruct (loop cfg env fuel s0) as [[s1 r] |] eqn:Lp; [| discriminate].
    apply loop_lag in Lp as [t1 [E1 F1]].
    pose proof (finish_ok cfg s1 r) as [t2 [E2 F2]].
    assert (Hs : finish cfg (s1, r) = (s, o)) by congruence.
    rewrite Hs in E2. cbn in E2.
    rewrite E2, E1, E0 in Hin. cbn in Hin.
    apply in_app_or in Hin as [Hin | Hin]; [apply in_app_or in Hin as [Hin | Hin] |].
    + apply (proj1 (List.Forall_forall _ _) F0) in Hin. contradiction.
    + apply (proj1 (List.Forall_forall _ _) F1) in Hin. exact Hin.
    + apply (proj1 (List.Forall_forall _ _) F2) in Hin. contradiction.
  - injection H as <- _. rewrite E0 in Hin. cbn in Hin.
    apply (proj1 (List.Forall_forall _ _) F0) in Hin. contradiction.
Qed.

End Lagging.

Lemma saved_iteration_is_not_ahead_witness :
  exists s,
    train ex_cfg ex_env 10 ex_state_resumed = Some (s, Returned) /\
    In ({| at_iteration := 2; at_total := 1 # 2 |}, ESave ex_state_resumed) (trace s) /\
    exists z, ex_state_resumed !! "iteration" = Some (VInt z) /\ z <= 2.
Proof.
  assert (T : exists s,
             train ex_cfg ex_env 10 ex_state_resumed = Some (s, Returned) /\
             In ({| at_iteration := 2; at_total := 1 # 2 |}, ESave ex_state_resumed)
                (trace s)).
  { eexists. split; [vm_compute; reflexivity |].
    apply (nth_error_In _ 18). vm_compute. reflexivity. }
  destruct T as (s & T & Hin). exists s. split; [exact T |]. split; [exact Hin |].
  exact (saved_iteration_is_not_ahead ex_cfg ex_env 10%nat ex_state_resumed s Returned
           {| at_iteration := 2; at_total := 1 # 2 |} ex_state_resumed T Hin).
Defined.

Section Writer.

Variable cfg : Config.
Variable env : Env.

(** X8: with [logdir = None] no TensorBoard writer is created, written to,
    announced or closed at any point of the run. *)
Theorem no_writer_without_logdir fuel state0 s o st ev :
  logdir cfg = None ->
  train cfg env fuel state0 = Some (s, o) ->
  is_writer_event ev = true ->
  ~ In (st, ev) (trace s).
Proof.
  intros L H W Hin.
  destruct (train_trace cfg env fuel state0 s o H) as (t0 & t1 & t2 & E & F0 & F1 & F2).
  rewrite E in Hin. apply in_app_or in Hin as [Hin | Hin].
  - apply (proj1 (List.Forall_forall _ _) F0) in Hin.
    unfold setup_event_ok in Hin. cbn in Hin.
    destruct ev as [| | | | [] | | | | | | | | | | | |]; try discriminate;
      try contradiction; intuition congruence.
  - apply in_app_or in Hin as [Hin | Hin].
    + apply (proj1 (List.Forall_forall _ _) F1) in Hin.
      unfold loop_event_ok in Hin. cbn in Hin.
      destruct ev as [| | | | [] | | | | | | | | | | | |]; try discriminate;
        try contradiction; intuition congruence.
    + apply (proj1 (List.Forall_forall _ _) F2) in Hin.
      unfold final_event_ok in Hin. cbn in Hin.
      destruct ev as [| | | | [] | | | | | | | | | | | |]; try discriminate;
        try contradiction; intuition congruence.
Qed.

End Writer.

Lemma no_writer_without_logdir_witness :
  logdir ex_cfg_two = None /\
  is_writer_event EWriterClose = true /\
  exists s,
    train ex_cfg_two ex_env_two 10 ex_state_new = Some (s, Returned) /\
    ~ In ({| at_iteration := 3; at_total := 0 |}, EWriterClose) (trace s).
Proof.
  split; [reflexivity |]. split; [reflexivity |].
  assert (T : exists s,
             train ex_cfg_two ex_env_two 10 ex_state_new = Some (s, Returned))
    by (eexists; vm_compute; reflexivity).
  destruct T as [s T]. exists s. split; [exact T |].
  exact (no_writer_without_logdir ex_cfg_two ex_env_two 10%nat ex_state_new
           s Returned _ EWriterClose eq_refl T eq_refl).
Defined.

(** * The other entries of the dictionary *)

Lemma same_other_refl s : same_other_entries s s.
Proof. intros key _ _ _. reflexivity. Qed.

Lemma same_other_trans s1 s2 s3 :
  same_other_entries s1 s2 -> same_other_entries s2 s3 -> same_other_entries s1 s3.
Proof.
  intros H12 H23 key Hi Ho Hs. rewrite (H23 key Hi Ho Hs). exact (H12 key Hi Ho Hs).
Qed.

Lemma same_state_other {A} (m : M A) :
  follows same_state m -> follows same_other_entries m.
Proof. intros H s key _ _ _. now rewrite (H s). Qed.

Lemma other_update :
  follows same_other_entries (modify (fun s => set_state (state_update s) s)).
Proof.
  apply follows_modify. intros s key Hi Ho Hs. cbn. unfold state_update.
  rewrite !lookup_insert_ne by congruence. reflexivity.
Qed.

Ltac keep_other :=
  cbv zeta;
  repeat match goal with
         | |- follows _ (ret _) => apply (follows_ret _ same_other_refl)
         | |- follows _ (raise _) => apply (follows_raise _ same_other_refl)
         | |- follows _ get => apply (follows_get _ same_other_refl)
         | |- follows _ (may_raise _ _ _) =>
             apply (follows_may_raise _ same_other_refl)
         | |- follows _ (modify (fun s => set_state (state_update s) s)) =>
             apply other_update
         | |- follows _ (modify _) =>
             apply follows_modify; intros ? ? ? ? ?; reflexivity
         | |- follows _ (bind _ _) =>
             apply (follows_bind _ same_other_trans); [| intros ?]
         | |- follows _ (if ?b then _ else _) => destruct b
         | |- follows _ (match ?x with _ => _ end) => destruct x
         end.

Section OtherEntries.

Variable cfg : Config.
Variable env : Env.

Lemma report_other k : follows same_other_entries (report cfg env k).
Proof. unfold report, stack_mean, statistics_mean, call, emit. keep_other. Qed.

Lemma body_other k : follows same_other_entries (body cfg env k).
Proof.
  unfold body.
  apply (follows_bind _ same_other_trans);
    [apply same_state_other, train_step_state | intros l].
  apply (follows_bind _ same_other_trans);
    [apply same_state_other, reduce_losses_state | intros r].
  apply (follows_bind _ same_other_trans);
    [apply same_state_other, check_finite_state | intros _].
  apply (follows_bind _ same_other_trans); [keep_other | intros _].
  apply (follows_bind _ same_other_trans); [unfold bump; keep_other | intros _].
  apply (follows_bind _ same_other_trans); [apply report_other | intros _].
  apply (follows_bind _ same_other_trans);
    [apply same_state_other, validate_state | intros _].
  keep_other.
Qed.

Lemma for_batches_other n : follows same_other_entries (for_batches cfg env n).
Proof.
  induction n as [| n IH]; cbn [for_batches].
  - apply (follows_ret _ same_other_refl).
  - apply (follows_bind _ same_other_trans); [keep_other | intros a].
    apply (follows_bind _ same_other_trans); [keep_other | intros _].
    apply (follows_bind _ same_other_trans); [keep_other | intros _].
    apply (follows_bind _ same_other_trans); [apply body_other | intros c].
    destruct c; [exact IH | apply (follows_ret _ same_other_refl)].
Qed.

Lemma while_loop_other fuel : forall s s' r,
  while_loop cfg env fuel s = Some (s', r) -> same_other_entries s s'.
Proof.
  induction fuel as [| fuel IH]; intros s s' r H; [discriminate |].
  cbn [while_loop] in H.
  destruct (iteration s <? iterations cfg).
  - pose proof (for_batches_other (epoch_batches env (epoch s))
                  (set_epoch (S (epoch s)) (set_losses [] [] s))) as F.
    destruct (for_batches cfg env _ _) as [s1 [[] | e]]; cbn in F.
    + eapply same_other_trans; [exact F | eapply IH; exact H].
    + injection H as <- _. exact F.
  - injection H as <- _. apply same_other_refl.
Qed.

(** X10: whatever the run does, the entries of [state] other than
    ['iteration'], ['optimizer'] and ['scheduler'] are at the end what they
    were at the start: no other key is added, dropped or changed. *)
Theorem other_entries_are_kept fuel state0 s o key :
  train cfg env fuel state0 = Some (s, o) ->
  key <> "iteration" -> key <> "optimizer" -> key <> "scheduler" ->
  state s !! key = state0 !! key.
Proof.
  intros H Hi Ho Hs. unfold train in H.
  pose proof (setup_state cfg (initial cfg state0)) as Fs. unfold same_state in Fs.
  destruct (setup cfg (initial cfg state0)) as [s0 [[] | e]]; cbn in Fs.
  - destruct (loop cfg env fuel s0) as [[s1 r] |] eqn:Lp; [| discriminate].
    assert (S1 : same_other_entries s0 s1).
    { unfold loop in Lp.
      destruct (state s0 !! "iteration") as [[z | | |] |];
        try (injection Lp as <- _; apply same_other_refl);
        exact (while_loop_other _ _ _ _ Lp). }
    assert (S2 : state s = state s1).
    { unfold finish, close_writer in H.
      destruct r as [[] | e]; [| destruct (is_Exception e)];
        destruct (logdir cfg); injection H as <- _; reflexivity. }
    rewrite S2, (S1 key Hi Ho Hs), Fs. reflexivity.
  - injection H as <- _. now rewrite Fs.
Qed.

End OtherEntries.

Lemma other_entries_are_kept_witness :
  "path" <> "iteration" /\ "path" <> "optimizer" /\ "path" <> "scheduler" /\
  exists s,
    train ex_cfg ex_env 10 ex_state_resumed = Some (s, Returned) /\
    state s !! "path" = ex_state_resumed !! "path".
Proof.
  assert (H1 : "path" <> "iteration") by discriminate.
  assert (H2 : "path" <> "optimizer") by discriminate.
  assert (H3 : "path" <> "scheduler") by discriminate.
  repeat (split; [assumption |]).
  assert (T : exists s, train ex_cfg ex_env 10 ex_state_resumed = Some (s, Returned))
    by (eexists; vm_compute; reflexivity).
  destruct T as [s T]. exists s. split; [exact T |].
  exact (other_entries_are_kept ex_cfg ex_env 10%nat ex_state_resumed s Returned
           "path" T H1 H2 H3).
Defined.

Section Resume.

Variable cfg : Config.

Lemma setup_optimizer s s' :
  setup cfg s = (s', Ok tt) ->
  scheduler s' = scheduler s /\
  state s' = state s /\
  optimizer s' =
    match state s !! "optimizer" with
    | Some (VOptimizer o) => o
    | _ => optimizer s
    end.
Proof.
  unfold setup.
  run_block; cbn; intros H; try discriminate; injection H as <-;
    repeat split; reflexivity.
Qed.

(** X12: the set-up restores the optimizer from the ['optimizer'] entry of
    [state] when there is one, so that the [lr] argument then has no effect,
    and builds it from [lr] otherwise; it never reads the ['scheduler']
    entry: whatever [state] holds, training starts with a new scheduler. *)
Theorem setup_restores_optimizer_only state0 s :
  setup cfg (initial cfg state0) = (s, Ok tt) ->
  scheduler s = ReduceLROnPlateau /\
  state s = state0 /\
  optimizer s =
    match state0 !! "optimizer" with
    | Some (VOptimizer o) => o
    | _ => {| opt_lr := lr cfg; opt_steps := 0 |}
    end.
Proof.
  intros H. exact (setup_optimizer (initial cfg state0) s H).
Qed.

End Resume.

Lemma setup_restores_optimizer_only_witness :
  exists s,
    setup ex_cfg (initial ex_cfg ex_state_checkpoint) = (s, Ok tt) /\
    scheduler s = ReduceLROnPlateau /\
    optimizer s = {| opt_lr := 1 # 1000; opt_steps := 7 |}.
Proof.
  assert (S : exists s, setup ex_cfg (initial ex_cfg ex_state_checkpoint) = (s, Ok tt))
    by (eexists; vm_compute; reflexivity).
  destruct S as [s S]. exists s. split; [exact S |].
  destruct (setup_restores_optimizer_only ex_cfg ex_state_checkpoint s S)
    as (Hs & _ & Ho).
  split; [exact Hs | exact Ho].
Defined.

Lemma validation_and_save_are_gated_witness :
  exists s,
    train ex_cfg ex_env 10 ex_state_resumed = Some (s, Returned) /\
    In ({| at_iteration := 2; at_total := 1 # 2 |}, ESave ex_state_resumed) (trace s) /\
    (truthy (val_annotations ex_cfg) = true /\
     (2 = iterations ex_cfg \/
      (val_iterations ex_cfg <> 0 /\ 2 mod val_iterations ex_cfg = 0))) /\
    is_master ex_cfg = true.
Proof.
  assert (T : exists s,
             train ex_cfg ex_env 10 ex_state_resumed = Some (s, Returned) /\
             In ({| at_iteration := 2; at_total := 1 # 2 |}, ESave ex_state_resumed)
                (trace s)).
  { eexists. split; [vm_compute; reflexivity |].
    apply (nth_error_In _ 18). vm_compute. reflexivity. }
  destruct T as (s & T & Hin). exists s. split; [exact T |]. split; [exact Hin |].
  exact (validation_and_save_are_gated ex_cfg ex_env 10%nat ex_state_resumed s Returned
           {| at_iteration := 2; at_total := 1 # 2 |} (ESave ex_state_resumed) T Hin).
Defined.

Lemma single_process_makes_no_collective_call_witness :
  world ex_cfg <= 1 /\
  exists s,
    train ex_cfg ex_env 10 ex_state_resumed = Some (s, Returned) /\
    In ({| at_iteration := 1; at_total := 0 |}, EZeroGrad) (trace s) /\
    EZeroGrad <> EDistributedDataParallel /\
    forall kind x, EZeroGrad <> EAllReduce kind x.
Proof.
  assert (W : world ex_cfg <= 1) by (cbn; lia).
  split; [exact W |].
  assert (T : exists s,
             train ex_cfg ex_env 10 ex_state_resumed = Some (s, Returned) /\
             In ({| at_iteration := 1; at_total := 0 |}, EZeroGrad) (trace s)).
  { eexists. split; [vm_compute; reflexivity |].
    apply (nth_error_In _ 9). vm_compute. reflexivity. }
  destruct T as (s & T & Hin). exists s. split; [exact T |]. split; [exact Hin |].
  exact (single_process_makes_no_collective_call ex_cfg ex_env 10%nat
           ex_state_resumed s Returned _ EZeroGrad W T Hin).
Defined.

Lemma propagated_exception_leaves_writer_open_witness :
  exists s,
    train ex_cfg ex_env_interrupt 10 ex_state_new = Some (s, Propagated KeyboardInterrupt) /\
    ~ In EWriterClose (events s) /\
    In (ESummaryWriter "logs") (events s).
Proof.
  assert (T : exists s,
             train ex_cfg ex_env_interrupt 10 ex_state_new =
               Some (s, Propagated KeyboardInterrupt))
    by (eexists; vm_compute; reflexivity).
  destruct T as [s T]. exists s. split; [exact T |].
  destruct (propagated_exception_leaves_writer_open ex_cfg ex_env_interrupt 10%nat
              ex_state_new s KeyboardInterrupt T) as (Hc & _ & Hw).
  split; [exact Hc |].
  assert (S : snd (setup ex_cfg (initial ex_cfg ex_state_new)) = Ok tt)
    by (vm_compute; reflexivity).
  exact (proj2 (Hw S) "logs" eq_refl).
Defined.

(** * When the validation runs *)

Ltac keep_no_infer :=
  cbv zeta;
  repeat match goal with
         | |- follows _ (ret _) => apply follows_ret, appended_refl
         | |- follows _ (raise _) => apply follows_raise, appended_refl
         | |- follows _ get => apply follows_get, appended_refl
         | |- follows _ (may_raise _ _ _) => apply follows_may_raise, appended_refl
         | |- follows _ (modify (log _)) =>
             apply follows_modify; intros ?; apply appended_log; reflexivity
         | |- follows _ (modify _) =>
             apply follows_modify; intros ?; apply appended_same_trace; reflexivity
         | |- follows _ (bind _ _) =>
             apply follows_bind; [apply appended_trans | | intros ?]
         | |- follows _ (if ?b then _ else _) => destruct b
         | |- follows _ (match ?x with _ => _ end) => destruct x
         end.

Section ValidationPoints.

Variable cfg : Config.
Variable env : Env.

Hypothesis val_on : truthy (val_annotations cfg) = true.

Lemma no_infer_in l ev :
  Forall no_infer l -> is_infer_event ev = true -> ~ In ev (map snd l).
Proof.
  intros F Hev Hin. apply in_map_iff in Hin as ([st ev'] & E & Hin).
  apply (proj1 (List.Forall_forall _ _) F) in Hin. cbn in E. subst ev'.
  unfold no_infer in Hin. cbn in Hin. congruence.
Qed.

(** A validation block that returns called [infer] exactly when the test of
    line 159 held. *)
Lemma validate_infer k s s' :
  validate cfg env k s = (s', Ok tt) ->
  exists t,
    events s' = events s ++ t /\
    (In (EInfer (default "" (val_annotations cfg)) (mixed_precision cfg)) t <->
     validation_point cfg (iteration s)).
Proof.
  unfold validate, save_model, validation_point. rewrite val_on.
  unfold bind at 1, get at 1. cbn beta iota. unfold validation_due.
  destruct (iteration s =? iterations cfg) eqn:E1.
  - apply Z.eqb_eq in E1.
    run_block; cbn; intros H; try discriminate; injection H as <-;
      unfold events; cbn; rewrite !map_app; cbn; rewrite <- !app_assoc; cbn;
      (eexists; split; [reflexivity |]);
      (split; [intros _; left; exact E1 | intros _; left; reflexivity]).
  - apply Z.eqb_neq in E1.
    destruct (val_iterations cfg =? 0) eqn:E2.
    { unfold bind, raise. intros H. discriminate. }
    apply Z.eqb_neq in E2.
    destruct (iteration s mod val_iterations cfg =? 0) eqn:E3.
    + apply Z.eqb_eq in E3.
      run_block; cbn; intros H; try discriminate; injection H as <-;
        unfold events; cbn; rewrite !map_app; cbn; rewrite <- !app_assoc; cbn;
        (eexists; split; [reflexivity |]);
        (split; [intros _; right; split; assumption | intros _; left; reflexivity]).
    + apply Z.eqb_neq in E3. unfold bind, ret. cbn. intros H. injection H as <-.
      exists []. split; [now rewrite app_nil_r |].
      split; [intros [] | intros [H | [_ H]]; contradiction].
Qed.

Lemma train_step_no_infer k : follows (appended no_infer) (train_step env k).
Proof. unfold train_step, call, emit. keep_no_infer. Qed.

Lemma reduce_losses_no_infer k c b :
  follows (appended no_infer) (reduce_losses cfg env k c b).
Proof. unfold reduce_losses, all_reduce, call, emit. keep_no_infer. Qed.

Lemma report_no_infer k : follows (appended no_infer) (report cfg env k).
Proof. unfold report, stack_mean, statistics_mean, call, emit. keep_no_infer. Qed.

(** X13: with a validation set, an iteration that completes has called
    [infer] exactly when its count equals [iterations] or, [val_iterations]
    being other than 0, is a multiple of it. *)
Theorem validation_runs_exactly_when_due k s s' c :
  body cfg env k s = (s', Ok c) ->
  exists t,
    events s' = events s ++ t /\
    (In (EInfer (default "" (val_annotations cfg)) (mixed_precision cfg)) t <->
     validation_point cfg (iteration s + 1)).
Proof.
  intros H. unfold body in H.
  apply bind_Ok in H as (s1 & l & T & H).
  apply bind_Ok in H as (s2 & r & Rd & H).
  apply bind_Ok in H as (s3 & [] & Ck & H).
  apply bind_Ok in H as (s4 & [] & Inc & H).
  apply bind_Ok in H as (s5 & [] & Bp & H).
  apply bind_Ok in H as (s6 & [] & Rp & H).
  apply bind_Ok in H as (s7 & [] & Vl & H).
  apply bind_Ok in H as (s8 & a & G & H).
  unfold get in G. injection G as <- <-.
  assert (s' = s7) as -> by (destruct (iteration s7 =? iterations cfg); now injection H).
  clear H.
  unfold modify in Inc. injection Inc as <-.
  unfold bump, modify in Bp. injection Bp as <-.
  pose proof (train_step_counters env k s) as C1. rewrite T in C1.
  pose proof (reduce_losses_counters cfg env k (fst l) (snd l) s1) as C2.
  rewrite Rd in C2.
  pose proof (check_finite_counters cfg (fst r) (snd r) s2) as C3. rewrite Ck in C3.
  pose proof (train_step_no_infer k s) as A1. rewrite T in A1.
  pose proof (reduce_losses_no_infer k (fst l) (snd l) s1) as A2. rewrite Rd in A2.
  assert (s3 = s2) as ->.
  { unfold check_finite in Ck.
    destruct (is_master cfg && negb (isfinite (sadd (fst r) (snd r))));
      [discriminate | now injection Ck]. }
  match type of Rp with
  | report _ _ _ ?x = _ =>
      pose proof (report_counters cfg env k x) as C6;
      pose proof (report_no_infer k x) as A6
  end.
  rewrite Rp in C6, A6.
  destruct C1 as (I1 & _), C2 as (I2 & _), C6 as (I6 & _).
  cbn in I1, I2, I6, A1, A2, A6.
  destruct (validate_infer k s6 s7 Vl) as (t & Et & Ht).
  assert (A6' : appended no_infer s2 s6).
  { destruct A6 as [t6 [E6 F6]]. exists t6. split; [exact E6 | exact F6]. }
  assert (A : appended no_infer s s6).
  { eapply appended_trans; [exact A1 |].
    eapply appended_trans; [exact A2 | exact A6']. }
  destruct A as [pre [Ep Fp]].
  exists (map snd pre ++ t). split.
  - rewrite Et. unfold events. rewrite Ep, map_app. now rewrite <- app_assoc.
  - replace (iteration s + 1) with (iteration s6) by lia.
    rewrite <- Ht. split.
    + intros Hin. apply in_app_or in Hin as [Hin | Hin]; [| exact Hin].
      exfalso. refine (no_infer_in pre _ Fp _ Hin). reflexivity.
    + intros Hin. apply in_or_app. right. exact Hin.
Qed.

End ValidationPoints.

Lemma validation_runs_exactly_when_due_witness :
  truthy (val_annotations ex_cfg) = true /\
  exists s' c,
    body ex_cfg ex_env 0 (initial ex_cfg ex_state_resumed) = (s', Ok c) /\
    exists t,
      events s' = events (initial ex_cfg ex_state_resumed) ++ t /\
      (In (EInfer (default "" (val_annotations ex_cfg)) (mixed_precision ex_cfg)) t <->
       validation_point ex_cfg (iteration (initial ex_cfg ex_state_resumed) + 1)).
Proof.
  split; [reflexivity |].
  assert (B : exists s' c,
             body ex_cfg ex_env 0 (initial ex_cfg ex_state_resumed) = (s', Ok c))
    by (eexists; eexists; vm_compute; reflexivity).
  destruct B as (s' & c & B). exists s', c. split; [exact B |].
  exact (validation_runs_exactly_when_due ex_cfg ex_env eq_refl 0%nat
           (initial ex_cfg ex_state_resumed) s' c B).
Defined.

(** * The report with a metrics service *)

Lemma follows_statistics_mean (R : St -> St -> Prop) {B} l (f : scalar -> M B) :
  (forall s, R s s) -> follows R (bind (statistics_mean l) f).
Proof. intros Rr s. unfold bind, statistics_mean, raise. destruct l; apply Rr. Qed.

Ltac keep_no_post :=
  cbv zeta;
  repeat match goal with
         | |- follows _ (bind (statistics_mean _) _) =>
             apply follows_statistics_mean, appended_refl
         | |- follows _ (ret _) => apply follows_ret, appended_refl
         | |- follows _ (raise _) => apply follows_raise, appended_refl
         | |- follows _ get => apply follows_get, appended_refl
         | |- follows _ (may_raise _ _ _) => apply follows_may_raise, appended_refl
         | |- follows _ (modify (log _)) =>
             apply follows_modify; intros ?; apply appended_log; reflexivity
         | |- follows _ (modify _) =>
             apply follows_modify; intros ?; apply appended_same_trace; reflexivity
         | |- follows _ (bind _ _) =>
             apply follows_bind; [apply appended_trans | | intros ?]
         | |- follows _ (if ?b then _ else _) => destruct b
         | |- follows _ (match ?x with _ => _ end) => destruct x
         end.

Section Metrics.

Variable cfg : Config.
Variable env : Env.

Lemma train_step_no_post k : follows (appended no_post) (train_step env k).
Proof. unfold train_step, call, emit. keep_no_post. Qed.

Lemma reduce_losses_no_post k c b :
  follows (appended no_post) (reduce_losses cfg env k c b).
Proof. unfold reduce_losses, all_reduce, call, emit. keep_no_post. Qed.

Lemma report_no_post k : follows (appended no_post) (report cfg env k).
Proof. unfold report, stack_mean, call, emit. keep_no_post. Qed.

Lemma validate_no_post k : follows (appended no_post) (validate cfg env k).
Proof.
  unfold validate, validation_due, save_model, call, emit. keep_no_post.
Qed.

Lemma body_no_post k : follows (appended no_post) (body cfg env k).
Proof.
  unfold body.
  apply follows_bind; [apply appended_trans | apply train_step_no_post | intros l].
  apply follows_bind; [apply appended_trans | apply reduce_losses_no_post | intros r].
  apply follows_bind;
    [apply appended_trans | unfold check_finite; keep_no_post | intros _].
  apply follows_bind; [apply appended_trans | keep_no_post | intros _].
  apply follows_bind; [apply appended_trans | unfold bump; keep_no_post | intros _].
  apply follows_bind; [apply appended_trans | apply report_no_post | intros _].
  apply follows_bind; [apply appended_trans | apply validate_no_post | intros _].
  keep_no_post.
Qed.

Lemma for_batches_no_post n : follows (appended no_post) (for_batches cfg env n).
Proof.
  induction n as [| n IH]; cbn [for_batches].
  - apply follows_ret, appended_refl.
  - apply follows_bind; [apply appended_trans | keep_no_post | intros a].
    apply follows_bind; [apply appended_trans | keep_no_post | intros _].
    apply follows_bind; [apply appended_trans | keep_no_post | intros _].
    apply follows_bind; [apply appended_trans | apply body_no_post | intros c].
    destruct c; [exact IH | apply follows_ret, appended_refl].
Qed.

Lemma while_loop_no_post fuel : forall s s' r,
  while_loop cfg env fuel s = Some (s', r) -> appended no_post s s'.
Proof.
  induction fuel as [| fuel IH]; intros s s' r H; [discriminate |].
  cbn [while_loop] in H.
  destruct (iteration s <? iterations cfg).
  - pose proof (for_batches_no_post (epoch_batches env (epoch s))
                  (set_epoch (S (epoch s)) (set_losses [] [] s))) as F.
    destruct (for_batches cfg env _ _) as [s1 [[] | e]]; cbn in F.
    + eapply appended_trans; [| eapply IH; exact H].
      eapply appended_trans; [| exact F]. now apply appended_same_trace.
    + injection H as <- _.
      eapply appended_trans; [| exact F]. now apply appended_same_trace.
  - injection H as <- _. apply appended_refl.
Qed.

Lemma loop_no_post fuel s s' r :
  loop cfg env fuel s = Some (s', r) -> appended no_post s s'.
Proof.
  unfold loop. intros H.
  destruct (state s !! "iteration") as [[z | | |] |].
  2-4: injection H as <- _; apply appended_refl.
  all: eapply appended_trans; [| eapply while_loop_no_post; exact H];
    now apply appended_same_trace.
Qed.

Lemma train_no_post fuel state0 s o :
  train cfg env fuel state0 = Some (s, o) -> Forall no_post (trace s).
Proof.
  intros H.
  destruct (train_trace cfg env fuel state0 s o H) as (t0 & _ & _ & _ & F0 & _ & _).
  unfold train in H.
  pose proof (setup_ok cfg (initial cfg state0)) as [u0 [E0 G0]].
  assert (P0 : Forall no_post u0).
  { clear - G0. induction G0 as [| [st ev] l Hp _ IH]; constructor; [| exact IH].
    unfold setup_event_ok in Hp. cbn in Hp. unfold no_post. cbn.
    destruct ev; try reflexivity. contradiction. }
  destruct (setup cfg (initial cfg state0)) as [s0 [[] | e]]; cbn in E0.
  - destruct (loop cfg env fuel s0) as [[s1 r] |] eqn:Lp; [| discriminate].
    apply loop_no_post in Lp as [u1 [E1 G1]].
    pose proof (finish_ok cfg s1 r) as [u2 [E2 G2]].
    assert (Hs : finish cfg (s1, r) = (s, o)) by congruence.
    rewrite Hs in E2. cbn in E2.
    assert (P2 : Forall no_post u2).
    { clear - G2. induction G2 as [| [st ev] l Hp _ IH]; constructor; [| exact IH].
      unfold final_event_ok in Hp. cbn in Hp. unfold no_post. cbn.
      destruct ev; try reflexivity. contradiction. }
    rewrite E2, E1, E0. cbn.
    apply List.Forall_app. split; [apply List.Forall_app; split |]; assumption.
  - injection H as <- _. rewrite E0. cbn. exact P0.
Qed.

Hypothesis metrics_on : truthy (metrics_url cfg) = true.

(** A report that is due raises and leaves the dictionary as it is. *)
Lemma report_raises k s s' r :
  report_due cfg s = true ->
  report cfg env k s = (s', r) ->
  (exists e, r = Raise e) /\ state s' = state s.
Proof.
  intros D. unfold report. unfold bind at 1, get at 1. cbn beta iota.
  rewrite D, metrics_on.
  run_block; cbn; intros H; injection H as <- <-; split; eauto.
Qed.

(** With losses recorded and a writer that takes the scalars, the exception
    is the [TypeError] of [statistics.mean]. *)
Lemma report_type_error k s s' r c cl b bl :
  report_due cfg s = true ->
  cls_losses s = c :: cl ->
  box_losses s = b :: bl ->
  (forall tag, raises env (CAddScalar tag) k = None) ->
  report cfg env k s = (s', r) ->
  r = Raise not_a_ratio.
Proof.
  intros D Ec Eb Hw. unfold report. unfold bind at 1, get at 1. cbn beta iota.
  rewrite D, metrics_on, Ec, Eb.
  unfold stack_mean, statistics_mean, call, may_raise. rewrite !Hw.
  run_block; cbn; intros H; injection H as <- <-; reflexivity.
Qed.

(** On the master no pass through the body ends with the [break]. *)
Lemma body_never_breaks k s s' :
  is_master cfg = true ->
  body cfg env k s = (s', Ok Break) ->
  False.
Proof.
  intros Hm H. unfold body in H.
  apply bind_Ok in H as (s1 & l & T & H).
  apply bind_Ok in H as (s2 & r & Rd & H).
  apply bind_Ok in H as (s3 & [] & Ck & H).
  apply bind_Ok in H as (s4 & [] & Inc & H).
  apply bind_Ok in H as (s5 & [] & Bp & H).
  apply bind_Ok in H as (s6 & [] & Rp & H).
  apply bind_Ok in H as (s7 & [] & Vl & H).
  apply bind_Ok in H as (s8 & a & G & H).
  unfold get in G. injection G as <- <-.
  destruct (iteration s7 =? iterations cfg) eqn:B; [| discriminate].
  apply Z.eqb_eq in B.
  unfold modify in Inc. injection Inc as <-.
  unfold bump, modify in Bp. injection Bp as <-.
  match type of Rp with
  | report _ _ _ ?x = _ => remember x as sb eqn:Esb
  end.
  pose proof (report_counters cfg env k sb) as C6.
  pose proof (validate_counters cfg env k s6) as C7.
  rewrite Rp in C6. rewrite Vl in C7.
  destruct C6 as (I6 & _). destruct C7 as (I7 & _). cbn in I6, I7.
  assert (D : report_due cfg sb = true).
  { unfold report_due. rewrite Hm. cbn.
    replace (iteration sb =? iterations cfg) with true
      by (symmetry; apply Z.eqb_eq; lia).
    apply orb_true_r. }
  destruct (report_raises k sb s6 (Ok tt) D Rp) as [[e He] _]. discriminate.
Qed.

(** X14: with a truthy [metrics_url], a report that is due on the master
    does not return: the arguments of [post_metrics] are evaluated first and
    [statistics.mean] raises on the recorded losses, which are tensors.  The
    report leaves [state] as it was, [post_metrics] is called at no point of
    a run, and on the master a loop that had iterations to make does not run
    to its end. *)
Theorem metrics_url_makes_report_fail :
  (forall k s s' r,
      report_due cfg s = true ->
      report cfg env k s = (s', r) ->
      (exists e, r = Raise e) /\ state s' = state s) /\
  (forall k s s' r c cl b bl,
      report_due cfg s = true ->
      cls_losses s = c :: cl ->
      box_losses s = b :: bl ->
      (forall tag, raises env (CAddScalar tag) k = None) ->
      report cfg env k s = (s', r) ->
      r = Raise not_a_ratio /\ is_Exception not_a_ratio = true) /\
  (forall fuel state0 s o st url focal box learning_rate,
      train cfg env fuel state0 = Some (s, o) ->
      ~ In (st, EPostMetrics url focal box learning_rate) (trace s)) /\
  (forall fuel s0 s,
      is_master cfg = true ->
      (state s0 !! "iteration" = None \/
       exists z, state s0 !! "iteration" = Some (VInt z)) ->
      start_iteration (state s0) < iterations cfg ->
      loop cfg env fuel s0 <> Some (s, Ok tt)).
Proof.
  split; [| split; [| split]].
  - exact report_raises.
  - intros k s s' r c cl b bl D Ec Eb Hw H.
    split; [exact (report_type_error k s s' r c cl b bl D Ec Eb Hw H) | reflexivity].
  - intros fuel state0 s o st url focal box learning_rate H Hin.
    apply train_no_post in H.
    apply (proj1 (List.Forall_forall _ _) H) in Hin.
    unfold no_post in Hin. cbn in Hin. discriminate.
  - intros fuel s0 s Hm Hst Hlt H. unfold loop, start_iteration in *.
    assert (W : forall z, z < iterations cfg ->
                while_loop cfg env fuel (set_iteration z s0) = Some (s, Ok tt) ->
                False).
    { intros z Hz. apply (while_loop_last cfg env (fun _ => False)).
      - intros k sa sb Bd. exact (body_never_breaks k sa sb Hm Bd).
      - exact Hz. }
    destruct Hst as [Hst | [z Hst]]; rewrite Hst in *; exact (W _ Hlt H).
Qed.

End Metrics.

Lemma metrics_url_makes_report_fail_witness :
  truthy (metrics_url ex_cfg) = true /\
  exists s,
    train ex_cfg ex_env 10 ex_state_resumed = Some (s, Returned) /\
    skipn 23 (events s) =
      [EPrint (LProgress 3 3 (Fin (2 # 2)) (Fin (4 # 2)) (1 # 100));
       EAddScalar "focal_loss" (Fin (2 # 2)) 3;
       EAddScalar "box_loss" (Fin (4 # 2)) 3;
       EAddScalar "learning_rate" (Fin (1 # 100)) 3;
       EPrint (LException not_a_ratio); EWriterClose] /\
    iteration s = 3 /\
    state s !! "iteration" = Some (VInt 1) /\
    ~ In ({| at_iteration := 3; at_total := 4 # 4 |},
          EPostMetrics "http://metrics" (Fin (2 # 2)) (Fin (4 # 2)) (1 # 100))
         (trace s).
Proof.
  split; [reflexivity |].
  pose (s := fst (default (initial ex_cfg ex_state_resumed, Returned)
                          (train ex_cfg ex_env 10 ex_state_resumed))).
  assert (T : train ex_cfg ex_env 10 ex_state_resumed = Some (s, Returned))
    by (vm_compute; reflexivity).
  exists s. split; [exact T |].
  split; [vm_compute; reflexivity |].
  split; [vm_compute; reflexivity |].
  split; [vm_compute; reflexivity |].
  exact (proj1 (proj2 (proj2 (metrics_url_makes_report_fail ex_cfg ex_env eq_refl)))
               10%nat ex_state_resumed s Returned _ _ _ _ _ T).
Defined.
